(** * vphs: range-request byte serving and LAN address discovery

    A shallow embedding of [main.go] (the gateway-based resolver and the
    [/video] handler) and of the earlier variant of the same file (the
    [getLocalIP] resolver), together with the parts of the Go standard
    library the handler calls: [strings.TrimPrefix], [strings.Split],
    [strconv.ParseInt], [strconv.FormatInt], [http.ResponseWriter],
    [http.Error], [io.Copy], [io.CopyN] and the [net.IP] predicates. *)

From Stdlib Require Import ZArith String Ascii List Lia Bool.
From stdpp Require Import base gmap strings list.

Local Open Scope string_scope.
Local Open Scope Z_scope.

(** ** Machine integers *)

Module Int64.

Definition min : Z := - 2 ^ 63.
Definition max : Z := 2 ^ 63 - 1.

(** Two's complement reduction of a mathematical integer to [int64]. *)
Definition wrap (z : Z) : Z := (z + 2 ^ 63) mod 2 ^ 64 - 2 ^ 63.

Definition add (a b : Z) : Z := wrap (a + b).
Definition sub (a b : Z) : Z := wrap (a - b).
Definition neg (a : Z) : Z := wrap (- a).

End Int64.

Module Uint64.

Definition max : Z := 2 ^ 64 - 1.
Definition wrap (z : Z) : Z := z mod 2 ^ 64.

End Uint64.

(** ** Package [strings] *)

(** [s[n:]] for [n <= len(s)]. *)
Fixpoint string_drop (n : nat) (s : string) : string :=
  match n, s with
  | O, _ => s
  | S k, EmptyString => EmptyString
  | S k, String _ s' => string_drop k s'
  end.

Definition strings_HasPrefix (s pre : string) : bool := String.prefix pre s.

Definition strings_TrimPrefix (s pre : string) : string :=
  if strings_HasPrefix s pre then string_drop (String.length pre) s else s.

(** [strings.Split(s, sep)] for a non-empty separator: the pieces between
    the leftmost non-overlapping occurrences of [sep].  [skip] counts the
    bytes of an occurrence of [sep] that are still to be passed over, [cur]
    is the piece being collected. *)
Fixpoint split_from (sep s : string) (skip : nat) (cur : string) : list string :=
  match s with
  | EmptyString => [cur]
  | String c s' =>
      match skip with
      | S k => split_from sep s' k cur
      | O =>
          if String.prefix sep s
          then cur :: split_from sep s' (Nat.pred (String.length sep)) EmptyString
          else split_from sep s' O (cur +:+ String c EmptyString)
      end
  end.

Definition strings_Split (s sep : string) : list string :=
  split_from sep s O EmptyString.

(** ** Package [strconv] *)

Inductive NumError : Set := ErrSyntax | ErrRange.

Definition byteval (c : ascii) : Z := Z.of_N (N_of_ascii c).

(** [lower(c)] of strconv: [c | ('x' - 'X')]. *)
Definition lower (c : Z) : Z := Z.lor c 32.

(** The digit switch of [ParseUint]; [None] is its [default] case. *)
Definition digit_of (c : ascii) : option Z :=
  let b := byteval c in
  if (48 <=? b) && (b <=? 57) then Some (b - 48)
  else if (97 <=? lower b) && (lower b <=? 122) then Some (lower b - 97 + 10)
  else None.

(** Cutoff of [ParseUint] for base 10: the smallest number such that
    [cutoff * 10 > maxUint64]. *)
Definition cutoff10 : Z := Uint64.max / 10 + 1.

(** The loop of [ParseUint(s, 10, 64)] over the bytes of [s], [n] being
    the value read so far. *)
Fixpoint ParseUint_loop (s : string) (n : Z) : Z * option NumError :=
  match s with
  | EmptyString => (n, None)
  | String c s' =>
      match digit_of c with
      | None => (0, Some ErrSyntax)
      | Some d =>
          if d >=? 10 then (0, Some ErrSyntax)
          else if n >=? cutoff10 then (Uint64.max, Some ErrRange)
          else
            let n10 := Uint64.wrap (n * 10) in
            let n1 := Uint64.wrap (n10 + d) in
            if (n1 <? n10) || (n1 >? Uint64.max) then (Uint64.max, Some ErrRange)
            else ParseUint_loop s' n1
      end
  end.

Definition strconv_ParseUint (s : string) : Z * option NumError :=
  match s with
  | EmptyString => (0, Some ErrSyntax)
  | _ => ParseUint_loop s 0
  end.

(** [strconv.ParseInt(s, 10, 64)]. *)
Definition strconv_ParseInt (s : string) : Z * option NumError :=
  match s with
  | EmptyString => (0, Some ErrSyntax)
  | String c0 rest =>
      let '(neg, s1) :=
        if Ascii.eqb c0 "+" then (false, rest)
        else if Ascii.eqb c0 "-" then (true, rest)
        else (false, s) in
      let '(un, err) := strconv_ParseUint s1 in
      match err with
      | Some ErrSyntax => (0, Some ErrSyntax)
      | _ =>
          let cutoff := 2 ^ 63 in
          if negb neg && (un >=? cutoff) then (cutoff - 1, Some ErrRange)
          else if neg && (un >? cutoff) then (- cutoff, Some ErrRange)
          else
            let n := Int64.wrap un in
            (if neg then Int64.neg n else n, None)
      end
  end.

Definition digit_char (d : Z) : ascii := ascii_of_N (Z.to_N (48 + d)).

(** The digit loop of [formatBits] in base 10, least significant digit
    first, writing in front of [acc].  A [uint64] has at most 20 decimal
    digits, which bounds the loop. *)
Fixpoint formatBits_loop (fuel : nat) (u : Z) (acc : string) : string :=
  match fuel with
  | O => acc
  | S k =>
      if u <? 10 then String (digit_char u) acc
      else formatBits_loop k (u / 10) (String (digit_char (u mod 10)) acc)
  end.

Definition formatBits (u : Z) : string := formatBits_loop 20 u EmptyString.

(** [strconv.FormatInt(i, 10)]; [%d] of [fmt.Sprintf] prints an [int64]
    the same way. *)
Definition strconv_FormatInt (i : Z) : string :=
  if i <? 0 then String "-" (formatBits (Uint64.wrap (- i)))
  else formatBits i.

(** ** Files *)

(** A file on disk: its bytes, and how the operating system answers [Stat]
    and [Seek] on it (a pipe, for one, refuses every [Seek]). *)
Record Inode := {
  contents : list Byte.byte;
  statErr : option string;
  seekFails : Z -> bool
}.

(** An open handle: the file and the read position. *)
Record File := {
  inode : Inode;
  offset : Z
}.

(** [os.Open]: the file system maps the paths that can be opened to their
    files, every other path is reported missing.  A new handle reads from
    position 0. *)
Definition os_Open (fs : gmap string Inode) (name : string) : File + string :=
  match fs !! name with
  | Some node => inl {| inode := node; offset := 0 |}
  | None => inr ("open " +:+ name +:+ ": no such file or directory")
  end.

Definition Size (node : Inode) : Z := Z.of_nat (length (contents node)).

(** [file.Stat()] followed by [fileInfo.Size()]. *)
Definition File_Stat (f : File) : Z + string :=
  match statErr (inode f) with
  | Some e => inr e
  | None => inl (Size (inode f))
  end.

(** [file.Seek(off, io.SeekStart)]: a negative position is always refused. *)
Definition File_Seek (f : File) (off : Z) : File + string :=
  if (off <? 0) || seekFails (inode f) off then inr "seek: invalid argument"
  else inl {| inode := inode f; offset := off |}.

(** The bytes from the read position to the end of the file. *)
Definition File_rest (f : File) : list Byte.byte :=
  drop (Z.to_nat (offset f)) (contents (inode f)).

(** ** Package [net/http] *)

Definition StatusOK : Z := 200.
Definition StatusPartialContent : Z := 206.
Definition StatusBadRequest : Z := 400.
Definition StatusInternalServerError : Z := 500.

Record Request := { Header : gmap string string }.

(** [Header.Get]: the empty string when the key is absent. *)
Definition Header_Get (h : gmap string string) (key : string) : string :=
  default EmptyString (h !! key).

(** The response writer, as [httptest.ResponseRecorder] keeps it: the
    header map the handler edits, the status code and the snapshot of the
    headers taken by the first [WriteHeader], and the body written. *)
Record ResponseWriter := {
  HeaderMap : gmap string string;
  wroteHeader : bool;
  Code : Z;
  snapHeader : gmap string string;
  Body : list Byte.byte
}.

Definition NewRecorder : ResponseWriter :=
  {| HeaderMap := ∅; wroteHeader := false; Code := StatusOK;
     snapHeader := ∅; Body := [] |}.

Definition Header_Set (w : ResponseWriter) (key value : string) : ResponseWriter :=
  {| HeaderMap := <[key := value]> (HeaderMap w); wroteHeader := wroteHeader w;
     Code := Code w; snapHeader := snapHeader w; Body := Body w |}.

Definition Header_Del (w : ResponseWriter) (key : string) : ResponseWriter :=
  {| HeaderMap := delete key (HeaderMap w); wroteHeader := wroteHeader w;
     Code := Code w; snapHeader := snapHeader w; Body := Body w |}.

(** Only the first [WriteHeader] counts; a later call is superfluous and
    changes nothing. *)
Definition WriteHeader (w : ResponseWriter) (code : Z) : ResponseWriter :=
  if wroteHeader w then w
  else {| HeaderMap := HeaderMap w; wroteHeader := true; Code := code;
          snapHeader := HeaderMap w; Body := Body w |}.

(** [Write]: an implicit [WriteHeader(200)] when no header was written. *)
Definition Write (w : ResponseWriter) (buf : list Byte.byte) : ResponseWriter :=
  let w1 := WriteHeader w StatusOK in
  {| HeaderMap := HeaderMap w1; wroteHeader := wroteHeader w1; Code := Code w1;
     snapHeader := snapHeader w1; Body := (Body w1 ++ buf)%list |}.

(** [fmt.Fprintln(w, s)]. *)
Definition Fprintln (w : ResponseWriter) (s : string) : ResponseWriter :=
  Write w (list_byte_of_string (s +:+ String "010" EmptyString)).

(** [http.Error]. *)
Definition http_Error (w : ResponseWriter) (error : string) (code : Z) : ResponseWriter :=
  let w := Header_Del w "Content-Length" in
  let w := Header_Set w "Content-Type" "text/plain; charset=utf-8" in
  let w := Header_Set w "X-Content-Type-Options" "nosniff" in
  let w := WriteHeader w code in
  Fprintln w error.

(** What the client receives once the handler has returned. *)
Record Response := {
  StatusCode : Z;
  RespHeader : gmap string string;
  RespBody : list Byte.byte
}.

Definition Result (w : ResponseWriter) : Response :=
  {| StatusCode := Code w;
     RespHeader := if wroteHeader w then snapHeader w else HeaderMap w;
     RespBody := Body w |}.

(** ** Package [io] *)

(** A copy loop that reads nothing calls [Write] not once. *)
Definition write_all (w : ResponseWriter) (buf : list Byte.byte) : ResponseWriter :=
  match buf with
  | [] => w
  | _ => Write w buf
  end.

(** [io.Copy(w, file)]. *)
Definition io_Copy (w : ResponseWriter) (f : File) : ResponseWriter :=
  write_all w (File_rest f).

(** [io.CopyN(w, file, n)]: at most [n] bytes, none when [n <= 0]. *)
Definition io_CopyN (w : ResponseWriter) (f : File) (n : Z) : ResponseWriter :=
  write_all w (take (Z.to_nat n) (File_rest f)).

(** ** [videoHandler] *)

(** The global variables of the program. *)
Record Globals := { videoFilePath : string; serverPort : Z }.

(** Lines 147-166 of [videoHandler]: from the non-empty [Range] header and
    the file size to [start] and [end], or to the 400 answer. *)
Inductive RangeSpec : Set :=
| InvalidRange
| ByteRange (start end_ : Z).

Definition rangeParts (rangeHeader : string) : list string :=
  strings_Split (strings_TrimPrefix rangeHeader "bytes=") "-".

Definition parseRange (rangeHeader : string) (fileSize : Z) : RangeSpec :=
  let parts := rangeParts rangeHeader in
  let '(start, err) := strconv_ParseInt (nth 0 parts EmptyString) in
  match err with
  | Some _ => InvalidRange
  | None =>
      let end0 := Int64.sub fileSize 1 in
      let parsed :=
        match parts !! 1%nat with
        | Some p1 =>
            if negb (String.eqb p1 EmptyString) then
              let '(e, err) := strconv_ParseInt p1 in
              match err with
              | Some _ => None
              | None => Some e
              end
            else Some end0
        | None => Some end0
        end in
      match parsed with
      | None => InvalidRange
      | Some e =>
          let e := if e >? Int64.sub fileSize 1 then Int64.sub fileSize 1 else e in
          ByteRange start e
      end
  end.

Definition Content_Range (start end_ fileSize : Z) : string :=
  "bytes " +:+ strconv_FormatInt start +:+ "-" +:+ strconv_FormatInt end_
           +:+ "/" +:+ strconv_FormatInt fileSize.

Definition videoHandler (g : Globals) (fs : gmap string Inode)
    (w : ResponseWriter) (r : Request) : ResponseWriter :=
  match os_Open fs (videoFilePath g) with
  | inr err =>
      http_Error w ("Failed to open video file: " +:+ err) StatusInternalServerError
  | inl file =>
      match File_Stat file with
      | inr err =>
          http_Error w ("Failed to get file information: " +:+ err)
                     StatusInternalServerError
      | inl fileSize =>
          let rangeHeader := Header_Get (Header r) "Range" in
          if negb (String.eqb rangeHeader EmptyString) then
            match parseRange rangeHeader fileSize with
            | InvalidRange => http_Error w "Invalid Range request" StatusBadRequest
            | ByteRange start end_ =>
                let n := Int64.add (Int64.sub end_ start) 1 in
                let w := Header_Set w "Content-Range" (Content_Range start end_ fileSize) in
                let w := Header_Set w "Content-Length" (strconv_FormatInt n) in
                let w := Header_Set w "Accept-Ranges" "bytes" in
                let w := WriteHeader w StatusPartialContent in
                match File_Seek file start with
                | inr _ => http_Error w "Failed to seek file" StatusInternalServerError
                | inl file => io_CopyN w file n
                end
            end
          else
            let w := Header_Set w "Content-Length" (strconv_FormatInt fileSize) in
            let w := Header_Set w "Accept-Ranges" "bytes" in
            io_Copy w file
      end
  end.

(** One GET of [/video] with the given [Range] header ([None]: no such
    header), answered on a fresh response writer. *)
Definition request (range : option string) : Request :=
  {| Header := match range with Some v => {["Range" := v]} | None => ∅ end |}.

Definition serve (g : Globals) (fs : gmap string Inode) (range : option string) : Response :=
  Result (videoHandler g fs NewRecorder (request range)).

(** ** Package [net] *)

(** A [net.IP] is a byte slice; [nil] is the empty one. *)
Definition IP := list Z.

Definition v4InV6Prefix : list Z := [0; 0; 0; 0; 0; 0; 0; 0; 0; 0; 255; 255].
Definition IPv4bcast : IP := (v4InV6Prefix ++ [255; 255; 255; 255])%list.
Definition IPv4zero : IP := (v4InV6Prefix ++ [0; 0; 0; 0])%list.
Definition IPv6unspecified : IP := replicate 16 0.
Definition IPv6loopback : IP := (replicate 15 0 ++ [1])%list.

Definition ipbyte (ip : IP) (i : nat) : Z := nth i ip 0.

(** [ip.To4()]; [None] is the [nil] result. *)
Definition To4 (ip : IP) : option IP :=
  if (length ip =? 4)%nat then Some ip
  else if (length ip =? 16)%nat && forallb (Z.eqb 0) (take 10 ip)
          && (ipbyte ip 10 =? 255) && (ipbyte ip 11 =? 255)
  then Some (take 4 (drop 12 ip))
  else None.

Definition IP_Equal (ip x : IP) : bool :=
  if (length ip =? length x)%nat then bool_decide (ip = x)
  else if (length ip =? 4)%nat && (length x =? 16)%nat
  then bool_decide (take 12 x = v4InV6Prefix) && bool_decide (ip = drop 12 x)
  else if (length ip =? 16)%nat && (length x =? 4)%nat
  then bool_decide (take 12 ip = v4InV6Prefix) && bool_decide (drop 12 ip = x)
  else false.

Definition IsUnspecified (ip : IP) : bool :=
  IP_Equal ip IPv4zero || IP_Equal ip IPv6unspecified.

Definition IsLoopback (ip : IP) : bool :=
  match To4 ip with
  | Some ip4 => ipbyte ip4 0 =? 127
  | None => IP_Equal ip IPv6loopback
  end.

Definition IsMulticast (ip : IP) : bool :=
  match To4 ip with
  | Some ip4 => Z.land (ipbyte ip4 0) 240 =? 224
  | None => (length ip =? 16)%nat && (ipbyte ip 0 =? 255)
  end.

Definition IsLinkLocalUnicast (ip : IP) : bool :=
  match To4 ip with
  | Some ip4 => (ipbyte ip4 0 =? 169) && (ipbyte ip4 1 =? 254)
  | None => (length ip =? 16)%nat && (ipbyte ip 0 =? 254)
            && (Z.land (ipbyte ip 1) 192 =? 128)
  end.

Definition IsGlobalUnicast (ip : IP) : bool :=
  ((length ip =? 4)%nat || (length ip =? 16)%nat)
  && negb (IP_Equal ip IPv4bcast)
  && negb (IsUnspecified ip)
  && negb (IsLoopback ip)
  && negb (IsMulticast ip)
  && negb (IsLinkLocalUnicast ip).

Record IPNet := { IPNet_IP : IP; IPNet_Mask : list Z }.

(** [networkNumberAndMask]; the pair of [nil]s is the pair of empty lists. *)
Definition networkNumberAndMask (n : IPNet) : IP * list Z :=
  let ip := match To4 (IPNet_IP n) with Some ip4 => ip4 | None => IPNet_IP n end in
  if bool_decide (To4 (IPNet_IP n) = None) && negb (length ip =? 16)%nat then ([], [])
  else
    let m := IPNet_Mask n in
    if (length m =? 4)%nat then
      if negb (length ip =? 4)%nat then ([], []) else (ip, m)
    else if (length m =? 16)%nat then
      if (length ip =? 4)%nat then (ip, drop 12 m) else (ip, m)
    else ([], []).

(** The method [Contains] of an [IPNet]. *)
Definition Contains (n : IPNet) (ip : IP) : bool :=
  let '(nn, m) := networkNumberAndMask n in
  let ip := match To4 ip with Some x => x | None => ip end in
  if negb (length ip =? length nn)%nat then false
  else forallb (fun i => Z.land (ipbyte nn i) (ipbyte m i) =? Z.land (ipbyte ip i) (ipbyte m i))
               (seq 0 (length ip)).

(** A [net.Addr] is a pointer to a [net.IPNet] or a value of another type. *)
Inductive Addr :=
| IPNetAddr (n : IPNet)
| OtherAddr (s : string).

Definition FlagUp : Z := 1.

Record Interface := {
  Name : string;
  Flags : Z;
  Addrs : list Addr + string
}.

(** What the host answers to the network queries of the program. *)
Record Host := {
  net_Interfaces : list Interface + string;
  net_InterfaceAddrs : list Addr + string;
  gateway_DiscoverGateway : IP + string
}.

(** ** Address resolution *)

Inductive ResolveError :=
| InterfacesFailed (e : string)
| NoLocalIPForGateway (gwIP : IP)
| DiscoverFailed (e : string)
| FindLocalFailed (e : ResolveError)
| NilLocalIP.

(** The inner loop of [getLocalIPForGateway] over one interface's addresses. *)
Fixpoint scanAddrs (addrs : list Addr) (gwIP : IP) : option IP :=
  match addrs with
  | [] => None
  | IPNetAddr ipnet :: rest =>
      match To4 (IPNet_IP ipnet) with
      | None => scanAddrs rest gwIP
      | Some ipv4 =>
          if negb (IsGlobalUnicast ipv4) || IsLoopback ipv4 then scanAddrs rest gwIP
          else if Contains ipnet gwIP then Some ipv4
          else scanAddrs rest gwIP
      end
  | OtherAddr _ :: rest => scanAddrs rest gwIP
  end.

(** The outer loop; an interface whose [Addrs] fails is logged and passed. *)
Fixpoint scanInterfaces (interfaces : list Interface) (gwIP : IP) : option IP :=
  match interfaces with
  | [] => None
  | iface :: rest =>
      if Z.land (Flags iface) FlagUp =? 0 then scanInterfaces rest gwIP
      else
        match Addrs iface with
        | inr _ => scanInterfaces rest gwIP
        | inl addrs =>
            match scanAddrs addrs gwIP with
            | Some ipv4 => Some ipv4
            | None => scanInterfaces rest gwIP
            end
        end
  end.

Definition getLocalIPForGateway (h : Host) (gwIP : IP) : IP + ResolveError :=
  match net_Interfaces h with
  | inr e => inr (InterfacesFailed e)
  | inl interfaces =>
      match scanInterfaces interfaces gwIP with
      | Some ipv4 => inl ipv4
      | None => inr (NoLocalIPForGateway gwIP)
      end
  end.

(** How [main] ends its start-up: [os.Exit] or the service running under
    the printed URL. *)
Inductive Startup :=
| Exit (code : Z)
| Serving (accessURL : string).

Section AddressText.

(** The text of an address that is not an IPv4 one (the IPv6 notation, or
    [?] and hexadecimal digits for a slice of another length) is left to
    the library. *)
Variable ipv6_String : IP -> string.

Definition dotted (ip4 : IP) : string :=
  strconv_FormatInt (ipbyte ip4 0) +:+ "." +:+ strconv_FormatInt (ipbyte ip4 1)
  +:+ "." +:+ strconv_FormatInt (ipbyte ip4 2) +:+ "." +:+ strconv_FormatInt (ipbyte ip4 3).

(** [ip.String()]. *)
Definition IP_String (ip : IP) : string :=
  match ip with
  | [] => "<nil>"
  | _ =>
      match To4 ip with
      | Some p4 => dotted p4
      | None => ipv6_String ip
      end
  end.

Definition localIPString (h : Host) : string + ResolveError :=
  match gateway_DiscoverGateway h with
  | inr e => inr (DiscoverFailed e)
  | inl gwIP =>
      match getLocalIPForGateway h gwIP with
      | inr e => inr (FindLocalFailed e)
      | inl localIP =>
          match localIP with
          | [] => inr NilLocalIP
          | _ => inl (IP_String localIP)
          end
      end
  end.

(** [main] up to the start of the service, after [flag.Parse] has set
    [serverPort] and left [args]. *)
Definition main (port : Z) (args : list string) (fs : gmap string Inode)
    (h : Host) : Startup :=
  if (port <? 1) || (port >? 65535) then Exit 1
  else
    match args with
    | [] => Exit 0
    | path :: _ =>
        match fs !! path with
        | None => Exit 1
        | Some _ =>
            match localIPString h with
            | inr _ => Exit 1
            | inl localIP =>
                Serving ("http://" +:+ localIP +:+ ":" +:+ strconv_FormatInt port)
            end
        end
    end.

(** The loop of [getLocalIP] of the earlier variant. *)
Fixpoint firstLANAddr (addrs : list Addr) : option string :=
  match addrs with
  | [] => None
  | IPNetAddr ipNet :: rest =>
      if negb (IsLoopback (IPNet_IP ipNet)) then
        match To4 (IPNet_IP ipNet) with
        | Some _ => Some (IP_String (IPNet_IP ipNet))
        | None => firstLANAddr rest
        end
      else firstLANAddr rest
  | OtherAddr _ :: rest => firstLANAddr rest
  end.

Definition getLocalIP (h : Host) : string :=
  match net_InterfaceAddrs h with
  | inr _ => "localhost"
  | inl addrs =>
      match firstLANAddr addrs with
      | Some s => s
      | None => "localhost"
      end
  end.

End AddressText.

(** ** [playerHandler] *)

(** [filepath.Base] on a system whose path separator is [/]: the trailing
    separators are removed, then everything up to the last separator.  Both
    loops run from the end of the path, hence over its bytes reversed. *)
Fixpoint strip_separators (r : list ascii) : list ascii :=
  match r with
  | c :: r' => if Ascii.eqb c "/" then strip_separators r' else r
  | [] => []
  end.

Fixpoint last_element (r : list ascii) : list ascii :=
  match r with
  | c :: r' => if Ascii.eqb c "/" then [] else c :: last_element r'
  | [] => []
  end.

Definition filepath_Base (path : string) : string :=
  if String.eqb path EmptyString then "."
  else
    let r := strip_separators (rev (list_ascii_of_string path)) in
    let e := string_of_list_ascii (rev (last_element r)) in
    if String.eqb e EmptyString then "/" else e.

(** [fmt.Sprintf] for a format whose verbs are [%s] and [%%], with string
    operands. *)
Fixpoint fmt_Sprintf (format : string) (a : list string) : string :=
  match format with
  | EmptyString => EmptyString
  | String c rest =>
      if Ascii.eqb c "%" then
        match rest with
        | String v rest' =>
            if Ascii.eqb v "s" then
              match a with
              | x :: a' => x +:+ fmt_Sprintf rest' a'
              | [] => "%!s(MISSING)" +:+ fmt_Sprintf rest' []
              end
            else if Ascii.eqb v "%" then String "%" (fmt_Sprintf rest' a)
            else String c (fmt_Sprintf rest a)
        | EmptyString => "%!(NOVERB)"
        end
      else String c (fmt_Sprintf rest a)
  end.

Definition nl : string := String "010" EmptyString.
Definition dq : string := String "034" EmptyString.

(** The lines of the page between the two backquotes of [playerHandler]. *)
Definition page_lines : list string :=
  [ "<!DOCTYPE html>";
    ("<html lang=" +:+ dq +:+ "en" +:+ dq +:+ ">");
    "<head>";
    ("    <meta charset=" +:+ dq +:+ "UTF-8" +:+ dq +:+ ">");
    "    <title>%s - Video Player</title>";
    "    <style>";
    "        body {";
    "            margin: 0;";
    "            padding: 20px;";
    "            background-color: #f0f0f0;";
    "            display: flex;";
    "            flex-direction: column;";
    "            align-items: center;";
    "            font-family: Arial, sans-serif;";
    "        }";
    "        h1 {";
    "            color: #333;";
    "            margin-bottom: 20px;";
    "        }";
    "        video {";
    "            width: 90%%;";
    "            max-width: 1200px;";
    "            height: auto;";
    "            border-radius: 8px;";
    "            box-shadow: 0 4px 8px rgba(0,0,0,0.2);";
    "        }";
    "    </style>";
    "</head>";
    "<body>";
    "    <h1>%s</h1>";
    ("    <video controls autoplay preload=" +:+ dq +:+ "metadata" +:+ dq +:+ ">");
    ("        <source src=" +:+ dq +:+ "/video" +:+ dq +:+ " type=" +:+ dq +:+ "video/mp4" +:+ dq +:+ ">");
    "        Your browser does not support HTML5 video playback. Please upgrade your browser.";
    "    </video>";
    "</body>";
    "</html>" ].

(** The raw string: a line feed before the first line and after the last. *)
Definition page_format : string :=
  String.concat nl (EmptyString :: page_lines ++ [EmptyString])%list.

Definition playerHandler (g : Globals) (w : ResponseWriter) (r : Request)
    : ResponseWriter :=
  let filename := filepath_Base (videoFilePath g) in
  let html := fmt_Sprintf page_format [filename; filename] in
  let w := Header_Set w "Content-Type" "text/html; charset=utf-8" in
  Write w (list_byte_of_string html).

(** One GET of [/] answered on a fresh response writer. *)
Definition serve_page (g : Globals) : Response :=
  Result (playerHandler g NewRecorder (request None)).

(** ** [main] of the earlier variant *)


(** ** Vocabulary of the statements *)

(** No byte of [s] is the separator [-]. *)
Fixpoint no_dash (s : string) : bool :=
  match s with
  | EmptyString => true
  | String c s' => negb (Ascii.eqb c "-") && no_dash s'
  end.

(** Every byte of [s] is a decimal digit. *)
Fixpoint all_digits (s : string) : bool :=
  match s with
  | EmptyString => true
  | String c s' => (48 <=? byteval c) && (byteval c <=? 57) && all_digits s'
  end.

(** [s] is read by [strconv.ParseInt] as a non-negative integer. *)
Definition parses_nonneg (s : string) : Prop :=
  exists n, 0 <= n /\ strconv_ParseInt s = (n, None).

(** The header [bytes={start}-{end}]. *)
Definition range_header (start end_ : Z) : string :=
  "bytes=" +:+ strconv_FormatInt start +:+ "-" +:+ strconv_FormatInt end_.

(** Bytes [[start, end]] of a file. *)
Definition slice (start end_ : Z) (data : list Byte.byte) : list Byte.byte :=
  take (Z.to_nat (end_ - start + 1)) (drop (Z.to_nat start) data).

(** The interface is up and one of its addresses is the IPv4 address [ip],
    global unicast and not loopback, on a subnet holding [gwIP]. *)
Definition carries (iface : Interface) (gwIP ip : IP) : Prop :=
  Z.land (Flags iface) FlagUp <> 0 /\
  exists addrs ipnet,
    Addrs iface = inl addrs /\ In (IPNetAddr ipnet) addrs /\
    To4 (IPNet_IP ipnet) = Some ip /\
    IsGlobalUnicast ip = true /\ IsLoopback ip = false /\
    Contains ipnet gwIP = true.

(** The address is not one [getLocalIP] returns: not an [IPNet], loopback,
    or not IPv4. *)
Definition passed_over (a : Addr) : Prop :=
  match a with
  | IPNetAddr n => IsLoopback (IPNet_IP n) = true \/ To4 (IPNet_IP n) = None
  | OtherAddr _ => True
  end.

(** The headers of a 206 answer and of an answer of [http.Error]. *)
Definition range_headers (start end_ fileSize n : Z) : gmap string string :=
  <["Accept-Ranges" := "bytes"]>
    (<["Content-Length" := strconv_FormatInt n]>
       (<["Content-Range" := Content_Range start end_ fileSize]> ∅)).

Definition error_headers : gmap string string :=
  <["X-Content-Type-Options" := "nosniff"]>
    (<["Content-Type" := "text/plain; charset=utf-8"]> (delete "Content-Length" ∅)).

Definition error_body (msg : string) : list Byte.byte :=
  list_byte_of_string (msg +:+ String "010" EmptyString).


(** The header [bytes={start}-], without an end. *)
Definition open_header (start : Z) : string :=
  "bytes=" +:+ strconv_FormatInt start +:+ "-".

(** Every byte of [s] is the path separator. *)
Fixpoint all_separators (s : string) : bool :=
  match s with
  | EmptyString => true
  | String c s' => Ascii.eqb c "/" && all_separators s'
  end.

(** No byte of [s] is the path separator. *)
Fixpoint no_separator (s : string) : bool :=
  match s with
  | EmptyString => true
  | String c s' => negb (Ascii.eqb c "/") && no_separator s'
  end.

(** The interface is down or fails to list its addresses. *)
Definition unusable (iface : Interface) : Prop :=
  Z.land (Flags iface) FlagUp = 0 \/ exists e, Addrs iface = inr e.

(** ** Sample files and hosts *)

Definition demo_globals : Globals :=
  {| videoFilePath := "movie.mp4"; serverPort := 9090 |}.

(** A regular file: [Stat] and every [Seek] to a position [>= 0] succeed. *)
Definition regular (data : string) : Inode :=
  {| contents := list_byte_of_string data; statErr := None;
     seekFails := fun _ => false |}.

(** A named pipe: it opens and stats, and refuses to seek. *)
Definition pipe (data : string) : Inode :=
  {| contents := list_byte_of_string data; statErr := None;
     seekFails := fun _ => true |}.

Definition demo_disk : gmap string Inode :=
  {["movie.mp4" := regular "0123456789abcdefghij"]}.

Definition pipe_disk : gmap string Inode :=
  {["movie.mp4" := pipe "0123456789abcdefghij"]}.

Definition ip4 (a b c d : Z) : IP := [a; b; c; d].

Definition eth (ip mask : IP) : Addr :=
  IPNetAddr {| IPNet_IP := ip; IPNet_Mask := mask |}.

(** A loopback interface and an Ethernet interface on 192.168.1.0/24, the
    gateway being 192.168.1.1. *)
Definition lan_interfaces : list Interface :=
  [ {| Name := "lo"; Flags := 9; Addrs := inl [eth (ip4 127 0 0 1) (ip4 255 0 0 0)] |};
    {| Name := "eth0"; Flags := 19;
       Addrs := inl [eth (ip4 192 168 1 5) (ip4 255 255 255 0)] |} ].

Definition lan_host : Host :=
  {| net_Interfaces := inl lan_interfaces;
     net_InterfaceAddrs := inl [eth (ip4 127 0 0 1) (ip4 255 0 0 0);
                                eth (ip4 192 168 1 5) (ip4 255 255 255 0)];
     gateway_DiscoverGateway := inl (ip4 192 168 1 1) |}.

(** A host with nothing but its loopback interface. *)
Definition loopback_host : Host :=
  {| net_Interfaces :=
       inl [ {| Name := "lo"; Flags := 9;
                Addrs := inl [eth (ip4 127 0 0 1) (ip4 255 0 0 0)] |} ];
     net_InterfaceAddrs := inl [eth (ip4 127 0 0 1) (ip4 255 0 0 0)];
     gateway_DiscoverGateway := inr "no gateway found" |}.

Definition no_ipv6_text : IP -> string := fun _ => EmptyString.

(** A file that opens and then fails to [Stat]. *)
Definition unreadable (data : string) : Inode :=
  {| contents := list_byte_of_string data; statErr := Some "stat: input/output error";
     seekFails := fun _ => false |}.

Definition unreadable_disk : gmap string Inode :=
  {["movie.mp4" := unreadable "0123456789abcdefghij"]}.

(** A host whose wireless interface is down and whose tunnel interface
    fails to list its addresses, before the Ethernet interface. *)
Definition crowded_interfaces : list Interface :=
  [ {| Name := "wlan0"; Flags := 18;
       Addrs := inl [eth (ip4 192 168 1 9) (ip4 255 255 255 0)] |};
    {| Name := "tun0"; Flags := 19; Addrs := inr "route ip+net: no such device" |};
    {| Name := "eth0"; Flags := 19;
       Addrs := inl [eth (ip4 192 168 1 5) (ip4 255 255 255 0)] |} ].

(** The host with the given interfaces behind the gateway 192.168.1.1. *)
Definition host_with (interfaces : list Interface) : Host :=
  {| net_Interfaces := inl interfaces;
     net_InterfaceAddrs := inr "route ip+net: netlinkrib: too many open files";
     gateway_DiscoverGateway := inl (ip4 192 168 1 1) |}.

(** ** Facts on machine integers *)

Lemma Int64_wrap_id z : Int64.min <= z <= Int64.max -> Int64.wrap z = z.
Proof.
  unfold Int64.min, Int64.max, Int64.wrap. intros Hz.
  rewrite Z.mod_small; lia.
Qed.

Lemma Int64_sub_id a b :
  Int64.min <= a - b <= Int64.max -> Int64.sub a b = a - b.
Proof. apply Int64_wrap_id. Qed.

(** ** Strings *)

Lemma append_nil_r s : s +:+ EmptyString = s.
Proof.
  induction s as [|c s IH]; [done |].
  change (String c (s +:+ EmptyString) = String c s). by rewrite IH.
Qed.

Lemma append_snoc cur c s : (cur +:+ String c EmptyString) +:+ s = cur +:+ String c s.
Proof.
  induction cur as [|d cur IH]; [done |].
  change (String d ((cur +:+ String c EmptyString) +:+ s) = String d (cur +:+ String c s)).
  by rewrite IH.
Qed.

Lemma no_dash_app a b : no_dash (a +:+ b) = no_dash a && no_dash b.
Proof.
  induction a as [|c a IH]; [done |].
  change (negb (Ascii.eqb c "-") && no_dash (a +:+ b) =
          negb (Ascii.eqb c "-") && no_dash a && no_dash b).
  rewrite IH. by rewrite andb_assoc.
Qed.

Lemma all_digits_no_dash s : all_digits s = true -> no_dash s = true.
Proof.
  induction s as [|c s IH]; simpl; [done |].
  intros H. apply andb_prop in H as [H1 H2].
  rewrite IH by done. rewrite andb_true_r.
  destruct (Ascii.eqb_spec c "-") as [->|]; [|done].
  vm_compute in H1. discriminate.
Qed.

Lemma TrimPrefix_bytes s : strings_TrimPrefix ("bytes=" +:+ s) "bytes=" = s.
Proof.
  unfold strings_TrimPrefix, strings_HasPrefix.
  assert (String.prefix "bytes=" ("bytes=" +:+ s) = true) as ->
    by (destruct s; reflexivity).
  reflexivity.
Qed.

Lemma TrimPrefix_absent s pre :
  strings_HasPrefix s pre = false -> strings_TrimPrefix s pre = s.
Proof. unfold strings_TrimPrefix. by intros ->. Qed.

Lemma prefix_dash c s : String.prefix "-" (String c s) = Ascii.eqb c "-".
Proof.
  change (String.prefix "-" (String c s))
    with (if ascii_dec "-" c then String.prefix EmptyString s else false).
  destruct (ascii_dec "-" c) as [<-|Hne].
  - by destruct s.
  - symmetry. apply Ascii.eqb_neq. congruence.
Qed.

Lemma split_dash_cons c s cur :
  split_from "-" (String c s) O cur =
  if Ascii.eqb c "-" then cur :: split_from "-" s O EmptyString
  else split_from "-" s O (cur +:+ String c EmptyString).
Proof.
  change (split_from "-" (String c s) O cur) with
    (if String.prefix "-" (String c s)
     then cur :: split_from "-" s O EmptyString
     else split_from "-" s O (cur +:+ String c EmptyString)).
  by rewrite prefix_dash.
Qed.

Lemma split_no_dash s cur :
  no_dash s = true -> split_from "-" s O cur = [cur +:+ s].
Proof.
  revert cur. induction s as [|c s IH]; intros cur H.
  - by rewrite append_nil_r.
  - simpl in H. apply andb_prop in H as [Hc Hs].
    rewrite split_dash_cons. apply negb_true_iff in Hc. rewrite Hc.
    rewrite IH by done. by rewrite append_snoc.
Qed.

Lemma split_dash_app s t cur :
  no_dash s = true ->
  split_from "-" (s +:+ String "-" t) O cur = (cur +:+ s) :: split_from "-" t O EmptyString.
Proof.
  revert cur. induction s as [|c s IH]; intros cur H.
  - change (EmptyString +:+ String "-" t) with (String "-" t).
    rewrite split_dash_cons. by rewrite append_nil_r.
  - simpl in H. apply andb_prop in H as [Hc Hs].
    change (String c s +:+ String "-" t) with (String c (s +:+ String "-" t)).
    rewrite split_dash_cons. apply negb_true_iff in Hc. rewrite Hc.
    rewrite IH by done. by rewrite append_snoc.
Qed.

Lemma split_from_not_nil sep s skip cur : split_from sep s skip cur <> [].
Proof.
  revert skip cur. induction s as [|c s IH]; intros skip cur; [done |].
  cbn [split_from]. destruct skip; [|apply IH].
  destruct (String.prefix sep (String c s)); [done | apply IH].
Qed.

Lemma Split_not_nil s sep : strings_Split s sep <> [].
Proof. apply split_from_not_nil. Qed.

Lemma split_parts_no_dash s cur :
  no_dash cur = true ->
  Forall (fun p => no_dash p = true) (split_from "-" s O cur).
Proof.
  revert cur. induction s as [|c s IH]; intros cur H.
  - simpl. by constructor.
  - rewrite split_dash_cons. destruct (Ascii.eqb c "-") eqn:Hc.
    + constructor; [done | by apply IH].
    + apply IH. rewrite no_dash_app, H. simpl. by rewrite Hc.
Qed.

Lemma rangeParts_no_dash h :
  Forall (fun p => no_dash p = true) (rangeParts h).
Proof. by apply split_parts_no_dash. Qed.

Lemma rangeParts_pair p0 p1 :
  no_dash p0 = true -> no_dash p1 = true ->
  rangeParts ("bytes=" +:+ p0 +:+ "-" +:+ p1) = [p0; p1].
Proof.
  intros H0 H1. unfold rangeParts, strings_Split.
  rewrite TrimPrefix_bytes. change ("-" +:+ p1) with (String "-" p1).
  rewrite split_dash_app by done. by rewrite split_no_dash.
Qed.

Lemma rangeParts_more p0 p1 rest :
  no_dash p0 = true -> no_dash p1 = true ->
  exists tl, rangeParts ("bytes=" +:+ p0 +:+ "-" +:+ p1 +:+ "-" +:+ rest) = p0 :: p1 :: tl.
Proof.
  intros H0 H1. unfold rangeParts, strings_Split.
  rewrite TrimPrefix_bytes.
  change ("-" +:+ p1 +:+ "-" +:+ rest) with (String "-" (p1 +:+ String "-" rest)).
  rewrite split_dash_app by done. rewrite split_dash_app by done.
  eexists. reflexivity.
Qed.

(** ** Decimal text of integers *)

Ltac ten_cases d :=
  let H := fresh in
  assert (H : d = 0 \/ d = 1 \/ d = 2 \/ d = 3 \/ d = 4 \/ d = 5 \/ d = 6 \/
              d = 7 \/ d = 8 \/ d = 9) by lia;
  repeat (destruct H as [-> | H]); [..| subst d].

Lemma digit_of_char d : 0 <= d < 10 -> digit_of (digit_char d) = Some d.
Proof. intros Hd. ten_cases d; reflexivity. Qed.

Lemma digit_char_byteval d :
  0 <= d < 10 -> (48 <=? byteval (digit_char d)) && (byteval (digit_char d) <=? 57) = true.
Proof. intros Hd. ten_cases d; reflexivity. Qed.

Lemma ParseUint_loop_digit d s n :
  0 <= d < 10 -> 0 <= n -> n * 10 + d <= Uint64.max ->
  ParseUint_loop (String (digit_char d) s) n = ParseUint_loop s (n * 10 + d).
Proof.
  intros Hd Hn Hmax. cbn [ParseUint_loop]. rewrite digit_of_char by done.
  unfold cutoff10, Uint64.wrap, Uint64.max in *.
  destruct (Z.geb_spec d 10); [lia |].
  destruct (Z.geb_spec n ((2 ^ 64 - 1) / 10 + 1)).
  { assert ((2 ^ 64 - 1) / 10 = 1844674407370955161) by reflexivity. lia. }
  cbv zeta. rewrite (Z.mod_small (n * 10)) by lia.
  rewrite (Z.mod_small (n * 10 + d)) by lia.
  destruct (Z.ltb_spec (n * 10 + d) (n * 10)); [lia |].
  destruct (Z.gtb_spec (n * 10 + d) (2 ^ 64 - 1)); [lia | done].
Qed.

Lemma ParseUint_loop_app s t n :
  ParseUint_loop (s +:+ t) n =
  match ParseUint_loop s n with
  | (m, None) => ParseUint_loop t m
  | r => r
  end.
Proof.
  revert n. induction s as [|c s IH]; intros n; [done |].
  change (String c s +:+ t) with (String c (s +:+ t)). cbn [ParseUint_loop].
  destruct (digit_of c) as [d|]; [|done].
  destruct (d >=? 10); [done |]. destruct (n >=? cutoff10); [done |].
  cbv zeta. destruct (_ || _); [done | apply IH].
Qed.

Lemma ParseUint_loop_range s n u :
  0 <= n <= Uint64.max -> ParseUint_loop s n = (u, None) -> 0 <= u <= Uint64.max.
Proof.
  revert n. induction s as [|c s IH]; intros n Hn; cbn [ParseUint_loop].
  - intros [= <-]. done.
  - destruct (digit_of c) as [d|]; [|done].
    destruct (d >=? 10); [done |]. destruct (n >=? cutoff10); [done |].
    cbv zeta. destruct (_ || _); [done |]. apply IH.
    unfold Uint64.wrap, Uint64.max.
    pose proof (Z.mod_pos_bound (n * 10 mod 2 ^ 64 + d) (2 ^ 64) ltac:(lia)). lia.
Qed.

Lemma ParseUint_loop_ErrRange s n u :
  ParseUint_loop s n = (u, Some ErrRange) -> u = Uint64.max.
Proof.
  revert n. induction s as [|c s IH]; intros n; cbn [ParseUint_loop]; [done |].
  destruct (digit_of c) as [d|]; [|done].
  destruct (d >=? 10); [done |]. destruct (n >=? cutoff10); [by intros [= <-] |].
  cbv zeta. destruct (_ || _); [by intros [= <-] | apply IH].
Qed.

(** Without a leading [-], [ParseInt] only ever yields a non-negative
    [int64]. *)
Lemma ParseInt_unsigned s n :
  (forall r, s <> String "-" r) ->
  strconv_ParseInt s = (n, None) -> 0 <= n <= Int64.max.
Proof.
  intros Hs. destruct s as [|c0 rest]; [done |].
  unfold strconv_ParseInt.
  assert (Hneg : exists s1,
    (if Ascii.eqb c0 "+" then (false, rest)
     else if Ascii.eqb c0 "-" then (true, rest) else (false, String c0 rest))
    = (false, s1)).
  { destruct (Ascii.eqb c0 "+"); [eauto |].
    destruct (Ascii.eqb_spec c0 "-") as [->|]; [by destruct (Hs rest) | eauto]. }
  destruct Hneg as [s1 ->].
  destruct (strconv_ParseUint s1) as [un err] eqn:HU.
  assert (Hun : err = None -> 0 <= un <= Uint64.max).
  { intros ->. destruct s1; [done |]. apply ParseUint_loop_range in HU; [done |].
    unfold Uint64.max. lia. }
  assert (Herr : err = Some ErrRange -> un = Uint64.max).
  { intros ->. destruct s1; [done |]. by apply ParseUint_loop_ErrRange in HU. }
  destruct err as [[]|]; [done | |].
  - rewrite Herr by done. cbn [negb andb].
    destruct (Z.geb_spec Uint64.max (2 ^ 63)) as [|Hlt]; [by intros [=] |].
    unfold Uint64.max in Hlt. lia.
  - specialize (Hun eq_refl). cbn [negb andb].
    destruct (Z.geb_spec un (2 ^ 63)); [done |].
    intros [= <-]. rewrite Int64_wrap_id; unfold Int64.min, Int64.max; lia.
Qed.

Lemma formatBits_loop_acc fuel u acc :
  formatBits_loop fuel u acc = formatBits_loop fuel u EmptyString +:+ acc.
Proof.
  revert u acc. induction fuel as [|k IH]; intros u acc; [done |].
  cbn [formatBits_loop]. destruct (u <? 10); [done |].
  rewrite IH. rewrite (IH _ (String _ EmptyString)). by rewrite append_snoc.
Qed.

Lemma formatBits_loop_parse fuel u :
  0 <= u < 10 ^ Z.of_nat fuel -> u <= Uint64.max ->
  ParseUint_loop (formatBits_loop fuel u EmptyString) 0 = (u, None).
Proof.
  revert u. induction fuel as [|k IH]; intros u Hu Hmax.
  - change (10 ^ Z.of_nat 0) with 1 in Hu. by replace u with 0 by lia.
  - cbn [formatBits_loop]. destruct (Z.ltb_spec u 10) as [Hlt|Hge].
    + rewrite ParseUint_loop_digit by lia. cbn [ParseUint_loop]. f_equal; lia.
    + rewrite Nat2Z.inj_succ, Z.pow_succ_r in Hu by lia.
      pose proof (Z.div_mod u 10 ltac:(lia)) as Hdm.
      pose proof (Z.mod_pos_bound u 10 ltac:(lia)) as Hm.
      rewrite formatBits_loop_acc, ParseUint_loop_app.
      rewrite IH by lia.
      rewrite ParseUint_loop_digit by lia. cbn [ParseUint_loop]. f_equal; lia.
Qed.

Lemma formatBits_loop_digits fuel u acc :
  0 <= u -> all_digits acc = true -> all_digits (formatBits_loop fuel u acc) = true.
Proof.
  revert u acc. induction fuel as [|k IH]; intros u acc Hu Hacc; [done |].
  cbn [formatBits_loop]. destruct (Z.ltb_spec u 10) as [Hlt|Hge].
  - cbn [all_digits]. rewrite digit_char_byteval by lia. done.
  - pose proof (Z.mod_pos_bound u 10 ltac:(lia)) as Hm.
    apply IH; [apply Z.div_pos; lia |].
    cbn [all_digits]. rewrite digit_char_byteval by lia. done.
Qed.

Lemma formatBits_loop_cons fuel u c acc :
  exists c' r, formatBits_loop fuel u (String c acc) = String c' r.
Proof.
  revert u c acc. induction fuel as [|k IH]; intros u c acc; [by eauto |].
  cbn [formatBits_loop]. destruct (u <? 10); [by eauto | apply IH].
Qed.

Lemma formatBits_loop_S_cons k u acc :
  exists c r, formatBits_loop (S k) u acc = String c r.
Proof.
  cbn [formatBits_loop].
  destruct (u <? 10); [by eauto | apply formatBits_loop_cons].
Qed.

Lemma formatBits_cons u : exists c r, formatBits u = String c r.
Proof. apply formatBits_loop_S_cons. Qed.

Lemma FormatInt_digits n : 0 <= n -> all_digits (strconv_FormatInt n) = true.
Proof.
  intros Hn. unfold strconv_FormatInt.
  destruct (Z.ltb_spec n 0); [lia |]. by apply formatBits_loop_digits.
Qed.

Lemma FormatInt_no_dash n : 0 <= n -> no_dash (strconv_FormatInt n) = true.
Proof. intros Hn. by apply all_digits_no_dash, FormatInt_digits. Qed.

(** Reading back what [FormatInt] printed. *)
Lemma ParseInt_FormatInt n :
  0 <= n <= Int64.max -> strconv_ParseInt (strconv_FormatInt n) = (n, None).
Proof.
  intros Hn. pose proof (FormatInt_digits n ltac:(lia)) as Hd.
  unfold strconv_FormatInt in *. destruct (Z.ltb_spec n 0); [lia |].
  assert (HU : ParseUint_loop (formatBits n) 0 = (n, None)).
  { apply formatBits_loop_parse; unfold Int64.max, Uint64.max in *.
    - change (10 ^ Z.of_nat 20) with 100000000000000000000. lia.
    - lia. }
  destruct (formatBits_cons n) as (c & r & E). rewrite E in *.
  cbn [all_digits] in Hd. apply andb_prop in Hd as [Hc _].
  unfold strconv_ParseInt.
  destruct (Ascii.eqb_spec c "+") as [->|]; [done |].
  destruct (Ascii.eqb_spec c "-") as [->|]; [done |].
  unfold strconv_ParseUint. rewrite HU.
  unfold Int64.max in Hn. cbn [negb andb].
  destruct (Z.geb_spec n (2 ^ 63)); [lia |].
  rewrite Int64_wrap_id; [done | unfold Int64.min, Int64.max; lia].
Qed.

(** ** The response writer *)

Lemma Result_write_all w buf :
  wroteHeader w = true \/ Code w = StatusOK ->
  Result (write_all w buf) =
  {| StatusCode := Code w;
     RespHeader := if wroteHeader w then snapHeader w else HeaderMap w;
     RespBody := (Body w ++ buf)%list |}.
Proof.
  intros Hw. unfold write_all. destruct buf as [|b buf].
  - unfold Result. by rewrite app_nil_r.
  - unfold Write, WriteHeader, Result.
    destruct (wroteHeader w) eqn:E; cbn; rewrite ?E; [done |].
    destruct Hw as [|<-]; done.
Qed.

Lemma Result_http_Error_first w error code :
  wroteHeader w = false ->
  Result (http_Error w error code) =
  {| StatusCode := code;
     RespHeader := <["X-Content-Type-Options" := "nosniff"]>
                     (<["Content-Type" := "text/plain; charset=utf-8"]>
                        (delete "Content-Length" (HeaderMap w)));
     RespBody := (Body w ++ list_byte_of_string (error +:+ String "010" EmptyString))%list |}.
Proof.
  intros Hw. unfold http_Error, Fprintln, Write, WriteHeader, Header_Set, Header_Del, Result.
  cbn. rewrite Hw. cbn. done.
Qed.

(** Once the header is out, [http.Error] can no longer change the status
    or the headers: it only appends its text to the body. *)
Lemma Result_http_Error_late w error code :
  wroteHeader w = true ->
  Result (http_Error w error code) =
  {| StatusCode := Code w;
     RespHeader := snapHeader w;
     RespBody := (Body w ++ list_byte_of_string (error +:+ String "010" EmptyString))%list |}.
Proof.
  intros Hw. unfold http_Error, Fprintln, Write, WriteHeader, Header_Set, Header_Del, Result.
  cbn. rewrite Hw. cbn. rewrite ?Hw. done.
Qed.

(** ** The range of a request *)

Lemma no_dash_not_minus s : no_dash s = true -> forall r, s <> String "-" r.
Proof. intros H r ->. cbn in H. done. Qed.

Lemma rangeParts_cons h : exists p0 tl, rangeParts h = p0 :: tl.
Proof.
  destruct (rangeParts h) as [|p0 tl] eqn:E; [|by eauto].
  by apply Split_not_nil in E.
Qed.

Lemma rangeParts_ParseInt_range h i p n :
  rangeParts h !! i = Some p -> strconv_ParseInt p = (n, None) -> 0 <= n <= Int64.max.
Proof.
  intros Hp. apply ParseInt_unsigned, no_dash_not_minus.
  pose proof (rangeParts_no_dash h) as HF.
  rewrite Forall_forall in HF. apply HF, list_elem_of_lookup. eauto.
Qed.

(** [parseRange] spelled out on the fields of the header. *)
Lemma parseRange_fields h fileSize p0 tl :
  rangeParts h = p0 :: tl ->
  parseRange h fileSize =
  match strconv_ParseInt p0 with
  | (_, Some _) => InvalidRange
  | (start, None) =>
      match tl with
      | p1 :: _ =>
          if String.eqb p1 EmptyString then ByteRange start (Int64.sub fileSize 1)
          else match strconv_ParseInt p1 with
               | (_, Some _) => InvalidRange
               | (e, None) =>
                   ByteRange start (if e >? Int64.sub fileSize 1
                                    then Int64.sub fileSize 1 else e)
               end
      | [] => ByteRange start (Int64.sub fileSize 1)
      end
  end.
Proof.
  intros E. unfold parseRange. rewrite E. cbn [nth].
  destruct (strconv_ParseInt p0) as [start [err|]]; [done |].
  destruct tl as [|p1 tl]; cbn [lookup list_lookup].
  - destruct (Z.gtb_spec (Int64.sub fileSize 1) (Int64.sub fileSize 1)); [lia | done].
  - change ((p0 :: p1 :: tl) !! 1%nat) with (Some p1).
    destruct (String.eqb p1 EmptyString); cbn [negb].
    + destruct (Z.gtb_spec (Int64.sub fileSize 1) (Int64.sub fileSize 1)); [lia | done].
    + by destruct (strconv_ParseInt p1) as [e [err|]].
Qed.

Lemma parseRange_bounds h fileSize start end_ :
  0 <= fileSize <= Int64.max ->
  parseRange h fileSize = ByteRange start end_ ->
  0 <= start <= Int64.max /\ -1 <= end_ <= fileSize - 1.
Proof.
  intros Hsz. destruct (rangeParts_cons h) as (p0 & tl & E).
  rewrite (parseRange_fields _ _ _ _ E).
  assert (Hsub : Int64.sub fileSize 1 = fileSize - 1).
  { apply Int64_sub_id. unfold Int64.min, Int64.max in *. lia. }
  rewrite Hsub.
  destruct (strconv_ParseInt p0) as [s [err|]] eqn:E0; [done |].
  assert (0 <= s <= Int64.max) as Hs.
  { eapply (rangeParts_ParseInt_range h 0); [by rewrite E | done]. }
  destruct tl as [|p1 tl]; [intros [= <- <-]; lia |].
  destruct (String.eqb p1 EmptyString); [intros [= <- <-]; lia |].
  destruct (strconv_ParseInt p1) as [e [err|]] eqn:E1; [done |].
  assert (0 <= e <= Int64.max) as He.
  { eapply (rangeParts_ParseInt_range h 1); [by rewrite E | done]. }
  destruct (Z.gtb_spec e (fileSize - 1)); intros [= <- <-]; lia.
Qed.

(** ** The handler, case by case *)

Lemma Header_Get_request v : Header_Get (Header (request (Some v))) "Range" = v.
Proof. unfold Header_Get, request. cbn [Header]. by rewrite lookup_singleton_eq. Qed.

Lemma Header_Get_no_request : Header_Get (Header (request None)) "Range" = EmptyString.
Proof. unfold Header_Get, request. cbn [Header]. by rewrite lookup_empty. Qed.

Section Handler.

Variables (g : Globals) (fs : gmap string Inode) (node : Inode).
Hypothesis Hopen : fs !! videoFilePath g = Some node.
Hypothesis Hstat : statErr node = None.

Lemma serve_full range :
  range = None \/ range = Some EmptyString ->
  serve g fs range =
  {| StatusCode := StatusOK;
     RespHeader := <["Accept-Ranges" := "bytes"]>
                     (<["Content-Length" := strconv_FormatInt (Size node)]> ∅);
     RespBody := contents node |}.
Proof.
  intros Hr. unfold serve, videoHandler, os_Open, File_Stat. rewrite Hopen.
  cbn [inode]. rewrite Hstat.
  assert (Header_Get (Header (request range)) "Range" = EmptyString) as ->.
  { destruct Hr as [-> | ->]; [apply Header_Get_no_request | apply Header_Get_request]. }
  cbn [String.eqb negb]. unfold io_Copy. rewrite Result_write_all by (by right).
  reflexivity.
Qed.

Lemma serve_invalid h :
  h <> EmptyString -> parseRange h (Size node) = InvalidRange ->
  serve g fs (Some h) =
  {| StatusCode := StatusBadRequest; RespHeader := error_headers;
     RespBody := error_body "Invalid Range request" |}.
Proof.
  intros Hh Hp. unfold serve, videoHandler, os_Open, File_Stat. rewrite Hopen.
  cbn [inode]. rewrite Hstat. rewrite Header_Get_request.
  apply String.eqb_neq in Hh. rewrite Hh. cbn [negb]. rewrite Hp.
  by rewrite Result_http_Error_first.
Qed.

Lemma serve_range h start end_ :
  h <> EmptyString -> parseRange h (Size node) = ByteRange start end_ ->
  let n := Int64.add (Int64.sub end_ start) 1 in
  serve g fs (Some h) =
  {| StatusCode := StatusPartialContent;
     RespHeader := range_headers start end_ (Size node) n;
     RespBody :=
       if (start <? 0) || seekFails node start
       then error_body "Failed to seek file"
       else take (Z.to_nat n) (drop (Z.to_nat start) (contents node)) |}.
Proof.
  intros Hh Hp n. unfold serve, videoHandler, os_Open, File_Stat. rewrite Hopen.
  cbn [inode]. rewrite Hstat. rewrite Header_Get_request.
  apply String.eqb_neq in Hh. rewrite Hh. cbn [negb]. rewrite Hp.
  unfold File_Seek. cbn [inode]. fold n.
  destruct ((start <? 0) || seekFails node start).
  - by rewrite Result_http_Error_late.
  - unfold io_CopyN. by rewrite Result_write_all by (by left).
Qed.

End Handler.

(** ** Requests and headers *)

Lemma bytes_header_nonempty s : "bytes=" +:+ s <> EmptyString.
Proof. discriminate. Qed.

Lemma FormatInt_nonempty n : 0 <= n -> strconv_FormatInt n <> EmptyString.
Proof.
  intros Hn. unfold strconv_FormatInt. destruct (Z.ltb_spec n 0); [lia |].
  destruct (formatBits_cons n) as (c & r & ->). discriminate.
Qed.

Lemma parseRange_range_header start end_ fileSize :
  0 <= start <= Int64.max -> 0 <= end_ <= Int64.max ->
  0 <= fileSize <= Int64.max -> end_ < fileSize ->
  parseRange (range_header start end_) fileSize = ByteRange start end_.
Proof.
  intros Hs He Hsz Hlt. unfold range_header.
  rewrite (parseRange_fields _ _ (strconv_FormatInt start) [strconv_FormatInt end_]).
  2:{ apply rangeParts_pair; apply FormatInt_no_dash; lia. }
  rewrite !ParseInt_FormatInt by lia.
  pose proof (FormatInt_nonempty end_ ltac:(lia)) as Hne.
  apply String.eqb_neq in Hne. rewrite Hne.
  rewrite Int64_sub_id by (unfold Int64.min, Int64.max in *; lia).
  destruct (Z.gtb_spec end_ (fileSize - 1)); [lia | done].
Qed.

Lemma serve_parseRange_ext g fs h h' :
  h <> EmptyString -> h' <> EmptyString ->
  (forall fileSize, parseRange h fileSize = parseRange h' fileSize) ->
  serve g fs (Some h) = serve g fs (Some h').
Proof.
  intros Hh Hh' Hp. unfold serve, videoHandler.
  destruct (os_Open fs (videoFilePath g)) as [file|err]; [|done].
  destruct (File_Stat file) as [fileSize|err]; [|done].
  rewrite !Header_Get_request.
  apply String.eqb_neq in Hh, Hh'. rewrite Hh, Hh'. cbn [negb]. by rewrite Hp.
Qed.

Lemma range_headers_lookup start end_ fileSize n :
  range_headers start end_ fileSize n !! "Content-Range"
    = Some (Content_Range start end_ fileSize) /\
  range_headers start end_ fileSize n !! "Content-Length"
    = Some (strconv_FormatInt n) /\
  range_headers start end_ fileSize n !! "Accept-Ranges" = Some "bytes".
Proof.
  unfold range_headers. split; [|split].
  - rewrite !lookup_insert_ne by done. by rewrite lookup_insert_eq.
  - rewrite lookup_insert_ne by done. by rewrite lookup_insert_eq.
  - by rewrite lookup_insert_eq.
Qed.

Lemma Size_bounds node : 0 <= Size node.
Proof. unfold Size. lia. Qed.

(** ** Range requests *)

(** C1. For a file of length [length] and a byte range with
    [start <= end < length], the request with [Range: bytes={start}-{end}]
    is answered with status 206, [Content-Range: bytes {start}-{end}/{length}],
    [Content-Length] [end-start+1] and, as body, bytes [[start, end]] of the
    file, of which there are [end-start+1]. *)
Theorem range_request_served g fs node start end_ :
  fs !! videoFilePath g = Some node ->
  statErr node = None ->
  Size node <= Int64.max ->
  seekFails node start = false ->
  0 <= start <= end_ -> end_ < Size node ->
  let resp := serve g fs (Some (range_header start end_)) in
  StatusCode resp = 206 /\
  RespHeader resp !! "Content-Range" =
    Some ("bytes " +:+ strconv_FormatInt start +:+ "-" +:+ strconv_FormatInt end_
          +:+ "/" +:+ strconv_FormatInt (Size node)) /\
  RespHeader resp !! "Content-Length" = Some (strconv_FormatInt (end_ - start + 1)) /\
  RespBody resp = slice start end_ (contents node) /\
  Z.of_nat (length (RespBody resp)) = end_ - start + 1.
Proof.
  intros Hopen Hstat Hmax Hseek Hse Hlt resp. subst resp.
  pose proof (Size_bounds node) as Hsz.
  assert (Hne : range_header start end_ <> EmptyString) by apply bytes_header_nonempty.
  rewrite (serve_range g fs node Hopen Hstat _ start end_ Hne).
  2:{ apply parseRange_range_header; lia. }
  assert (Hn : Int64.add (Int64.sub end_ start) 1 = end_ - start + 1).
  { unfold Int64.add. rewrite Int64_sub_id by (unfold Int64.min, Int64.max in *; lia).
    apply Int64_wrap_id. unfold Int64.min, Int64.max in *. lia. }
  rewrite Hn. cbn [StatusCode RespHeader RespBody].
  destruct (range_headers_lookup start end_ (Size node) (end_ - start + 1)) as (H1 & H2 & _).
  rewrite Hseek. destruct (Z.ltb_spec start 0); [lia |]. cbn [orb].
  repeat split; try done.
  unfold Size in *. rewrite length_take, length_drop. lia.
Qed.

Lemma range_request_served_witness :
  let resp := serve demo_globals demo_disk (Some (range_header 2 5)) in
  StatusCode resp = 206 /\
  RespHeader resp !! "Content-Range" =
    Some ("bytes " +:+ strconv_FormatInt 2 +:+ "-" +:+ strconv_FormatInt 5
          +:+ "/" +:+ strconv_FormatInt (Size (regular "0123456789abcdefghij"))) /\
  RespHeader resp !! "Content-Length" = Some (strconv_FormatInt (5 - 2 + 1)) /\
  RespBody resp = slice 2 5 (contents (regular "0123456789abcdefghij")) /\
  Z.of_nat (length (RespBody resp)) = 5 - 2 + 1.
Proof.
  apply (range_request_served demo_globals demo_disk
           (regular "0123456789abcdefghij") 2 5).
  - reflexivity.
  - reflexivity.
  - vm_compute. discriminate.
  - reflexivity.
  - lia.
  - vm_compute. reflexivity.
Defined.

(** C2. A request whose [Range] header is absent or empty is answered with
    status 200, [Content-Length] the length of the file,
    [Accept-Ranges: bytes] and the whole file as body. *)
Theorem full_request_served g fs node range :
  fs !! videoFilePath g = Some node ->
  statErr node = None ->
  range = None \/ range = Some EmptyString ->
  let resp := serve g fs range in
  StatusCode resp = 200 /\
  RespHeader resp !! "Content-Length" = Some (strconv_FormatInt (Size node)) /\
  RespHeader resp !! "Accept-Ranges" = Some "bytes" /\
  RespBody resp = contents node.
Proof.
  intros Hopen Hstat Hr resp. subst resp.
  rewrite (serve_full g fs node Hopen Hstat range Hr).
  cbn [StatusCode RespHeader RespBody].
  split; [done |]. split; [|split; [by rewrite lookup_insert_eq | done]].
  rewrite lookup_insert_ne by done. by rewrite lookup_insert_eq.
Qed.

Lemma full_request_served_witness :
  let resp := serve demo_globals demo_disk None in
  StatusCode resp = 200 /\
  RespHeader resp !! "Content-Length" =
    Some (strconv_FormatInt (Size (regular "0123456789abcdefghij"))) /\
  RespHeader resp !! "Accept-Ranges" = Some "bytes" /\
  RespBody resp = contents (regular "0123456789abcdefghij").
Proof.
  apply (full_request_served demo_globals demo_disk
           (regular "0123456789abcdefghij") None).
  - reflexivity.
  - reflexivity.
  - left. reflexivity.
Defined.

(** C3. Against a resource of length [fileSize], a header whose end field is
    absent or empty, and a header whose end field reads as a number above
    [fileSize - 1], both get the end [fileSize - 1]. *)
Theorem end_defaults_and_clamps h fileSize start :
  0 <= fileSize <= Int64.max ->
  strconv_ParseInt (nth 0 (rangeParts h) EmptyString) = (start, None) ->
  (rangeParts h !! 1%nat = None \/
   rangeParts h !! 1%nat = Some EmptyString \/
   exists p1 e, rangeParts h !! 1%nat = Some p1 /\
                strconv_ParseInt p1 = (e, None) /\ e > fileSize - 1) ->
  parseRange h fileSize = ByteRange start (fileSize - 1).
Proof.
  intros Hsz Hstart Hend. destruct (rangeParts_cons h) as (p0 & tl & E).
  rewrite (parseRange_fields _ _ _ _ E). rewrite E in Hstart, Hend.
  cbn [nth] in Hstart. rewrite Hstart.
  rewrite Int64_sub_id by (unfold Int64.min, Int64.max in *; lia).
  destruct tl as [|p1 tl]; [done |].
  change ((p0 :: p1 :: tl) !! 1%nat) with (Some p1) in Hend.
  destruct Hend as [[=] | [[= ->] | (p1' & e & [= <-] & He & Hgt)]]; [done |].
  destruct (String.eqb p1 EmptyString); [done |]. rewrite He.
  destruct (Z.gtb_spec e (fileSize - 1)); [done | lia].
Qed.

Lemma end_defaults_and_clamps_witness :
  parseRange "bytes=500-2000" 1000 = ByteRange 500 (1000 - 1).
Proof.
  apply (end_defaults_and_clamps "bytes=500-2000" 1000 500).
  - vm_compute. split; discriminate.
  - vm_compute. reflexivity.
  - right. right. exists "2000", 2000. vm_compute. repeat split; reflexivity.
Defined.

(** C4. A non-empty [Range] header whose start field is not read as a
    non-negative integer, or whose end field is present, non-empty and not
    read as a non-negative integer, is answered with status 400 and the
    text of the error as body: no byte of the file is written. *)
Theorem malformed_range_rejected g fs node h :
  fs !! videoFilePath g = Some node ->
  statErr node = None ->
  h <> EmptyString ->
  (~ parses_nonneg (nth 0 (rangeParts h) EmptyString) \/
   exists p1, rangeParts h !! 1%nat = Some p1 /\ p1 <> EmptyString /\ ~ parses_nonneg p1) ->
  let resp := serve g fs (Some h) in
  StatusCode resp = 400 /\
  RespBody resp = error_body "Invalid Range request" /\
  RespHeader resp !! "Content-Range" = None.
Proof.
  intros Hopen Hstat Hh Hbad resp. subst resp.
  rewrite (serve_invalid g fs node Hopen Hstat h Hh); [by repeat split |].
  destruct (rangeParts_cons h) as (p0 & tl & E).
  rewrite (parseRange_fields _ _ _ _ E).
  destruct (strconv_ParseInt p0) as [s [err|]] eqn:E0; [done |].
  assert (parses_nonneg p0) as Hp0.
  { exists s. split; [|done].
    by apply (rangeParts_ParseInt_range h 0 p0 s); [rewrite E |]. }
  rewrite E in Hbad. cbn [nth] in Hbad.
  destruct Hbad as [Hbad | (p1 & Hp1 & Hne & Hbad)]; [done |].
  destruct tl as [|p1' tl]; [done |].
  change ((p0 :: p1' :: tl) !! 1%nat) with (Some p1') in Hp1.
  injection Hp1 as ->. apply String.eqb_neq in Hne. rewrite Hne.
  destruct (strconv_ParseInt p1) as [e [err|]] eqn:E1; [done |].
  exfalso. apply Hbad. exists e. split; [|done].
  by apply (rangeParts_ParseInt_range h 1 p1 e); [rewrite E |].
Qed.

Lemma malformed_range_rejected_witness :
  let resp := serve demo_globals demo_disk (Some "bytes=abc-100") in
  StatusCode resp = 400 /\
  RespBody resp = error_body "Invalid Range request" /\
  RespHeader resp !! "Content-Range" = None.
Proof.
  apply (malformed_range_rejected demo_globals demo_disk
           (regular "0123456789abcdefghij") "bytes=abc-100").
  - reflexivity.
  - reflexivity.
  - discriminate.
  - left. intros (n & _ & H). vm_compute in H. discriminate.
Defined.

(** C5, as stated, fails: [bytes=0-10,20-30] is not served as the range
    0-10; its end field is [10,20] and the answer is 400. *)
Lemma multi_range_not_served_as_first_pair :
  rangeParts "bytes=0-10,20-30" = ["0"; "10,20"; "30"] /\
  parseRange "bytes=0-10,20-30" 20 <> ByteRange 0 10 /\
  StatusCode (serve demo_globals demo_disk (Some "bytes=0-10,20-30")) = 400 /\
  StatusCode (serve demo_globals demo_disk (Some "bytes=0-10")) = 206.
Proof. vm_compute. repeat split; discriminate. Qed.

(** C5, amended. Only the first two [-]-delimited fields of the header are
    read: what follows a second [-] changes nothing in the answer.  When the
    second field is not empty and not read as a non-negative integer (in
    [bytes=0-10,20-30] it is [10,20]), the answer is 400. *)
Theorem trailing_fields_ignored g fs node p0 p1 rest :
  fs !! videoFilePath g = Some node ->
  statErr node = None ->
  no_dash p0 = true -> no_dash p1 = true ->
  let long := "bytes=" +:+ p0 +:+ "-" +:+ p1 +:+ "-" +:+ rest in
  let short := "bytes=" +:+ p0 +:+ "-" +:+ p1 in
  serve g fs (Some long) = serve g fs (Some short) /\
  (p1 <> EmptyString -> ~ parses_nonneg p1 -> StatusCode (serve g fs (Some long)) = 400).
Proof.
  intros Hopen Hstat H0 H1 long short.
  destruct (rangeParts_more p0 p1 rest H0 H1) as (tl & El). fold long in El.
  pose proof (rangeParts_pair p0 p1 H0 H1) as Es. fold short in Es.
  assert (Hext : forall fileSize, parseRange long fileSize = parseRange short fileSize).
  { intros fileSize.
    rewrite (parseRange_fields _ _ _ _ El), (parseRange_fields _ _ _ _ Es). done. }
  split.
  - apply serve_parseRange_ext; [apply bytes_header_nonempty .. | done].
  - intros Hne Hbad.
    rewrite (serve_invalid g fs node Hopen Hstat long (bytes_header_nonempty _)); [done |].
    rewrite (parseRange_fields _ _ _ _ El).
    destruct (strconv_ParseInt p0) as [s [err|]]; [done |].
    apply String.eqb_neq in Hne. rewrite Hne.
    destruct (strconv_ParseInt p1) as [e [err|]] eqn:E1; [done |].
    exfalso. apply Hbad. exists e. split; [|done].
    by apply (ParseInt_unsigned p1 e); [apply no_dash_not_minus |].
Qed.

Lemma trailing_fields_ignored_witness :
  serve demo_globals demo_disk (Some "bytes=0-10,20-30") =
  serve demo_globals demo_disk (Some "bytes=0-10,20") /\
  ("10,20" <> EmptyString -> ~ parses_nonneg "10,20" ->
   StatusCode (serve demo_globals demo_disk (Some "bytes=0-10,20-30")) = 400).
Proof.
  apply (trailing_fields_ignored demo_globals demo_disk
           (regular "0123456789abcdefghij") "0" "10,20" "30").
  - reflexivity.
  - reflexivity.
  - reflexivity.
  - reflexivity.
Defined.

(** C6, as stated, fails: the header [0-10], which lacks the prefix
    [bytes=], is served as the byte range 0-10. *)
Lemma unprefixed_header_served :
  strings_HasPrefix "0-10" "bytes=" = false /\
  parseRange "0-10" 20 = ByteRange 0 10 /\
  StatusCode (serve demo_globals demo_disk (Some "0-10")) = 206 /\
  RespBody (serve demo_globals demo_disk (Some "0-10")) =
    slice 0 10 (contents (regular "0123456789abcdefghij")).
Proof. vm_compute. repeat split; reflexivity. Qed.

(** C6, amended. The prefix [bytes=] is removed when it is there and is not
    required: a non-empty header without it is answered as the same text
    with the prefix is. *)
Theorem prefix_optional g fs h :
  h <> EmptyString ->
  strings_HasPrefix h "bytes=" = false ->
  serve g fs (Some h) = serve g fs (Some ("bytes=" +:+ h)).
Proof.
  intros Hh Hpre.
  apply serve_parseRange_ext; [done | apply bytes_header_nonempty |].
  intros fileSize. unfold parseRange, rangeParts.
  by rewrite TrimPrefix_bytes, (TrimPrefix_absent h "bytes=" Hpre).
Qed.

Lemma prefix_optional_witness :
  serve demo_globals demo_disk (Some "0-10") =
  serve demo_globals demo_disk (Some ("bytes=" +:+ "0-10")).
Proof.
  apply (prefix_optional demo_globals demo_disk "0-10").
  - discriminate.
  - reflexivity.
Defined.

(** C7. On a file that refuses to seek, the handler has already sent the
    header with status 206 when [Seek] fails: the call of [http.Error]
    with 500 comes too late, the answer keeps status 206 and the range
    headers, and its body is the error text. *)
Theorem seek_failure_keeps_206 :
  let resp := serve demo_globals pipe_disk (Some "bytes=0-10") in
  StatusCode resp = 206 /\
  StatusCode resp <> 500 /\
  RespHeader resp !! "Content-Range" = Some "bytes 0-10/20" /\
  RespHeader resp !! "Content-Length" = Some "11" /\
  RespBody resp = error_body "Failed to seek file".
Proof. vm_compute. repeat split; (reflexivity || discriminate). Qed.

(** C10, as stated, fails: for [bytes=200-5] on 20 bytes the headers are
    [Content-Range: bytes 200-5/20] and [Content-Length: -194], not
    [bytes 200-19/20] and [-180]. *)
Lemma start_past_end_headers :
  let resp := serve demo_globals demo_disk (Some "bytes=200-5") in
  parseRange "bytes=200-5" 20 = ByteRange 200 5 /\
  StatusCode resp = 206 /\
  RespHeader resp !! "Content-Range" = Some "bytes 200-5/20" /\
  RespHeader resp !! "Content-Range" <> Some "bytes 200-19/20" /\
  RespHeader resp !! "Content-Length" = Some "-194" /\
  RespHeader resp !! "Content-Length" <> Some (strconv_FormatInt (20 - 200)).
Proof. vm_compute. repeat split; (reflexivity || discriminate). Qed.

(** C10, amended. When the start read from the header is above the end
    (the end field, or [length - 1] when that field is absent, empty or
    larger) and the seek succeeds, the answer has status 206,
    [Content-Range: bytes {start}-{end}/{length}] with that end,
    [Content-Length] [end-start+1], which is zero or negative, and an empty
    body. *)
Theorem start_past_end_served_empty g fs node h start end_ :
  fs !! videoFilePath g = Some node ->
  statErr node = None ->
  Size node <= Int64.max ->
  h <> EmptyString ->
  parseRange h (Size node) = ByteRange start end_ ->
  end_ < start ->
  seekFails node start = false ->
  let resp := serve g fs (Some h) in
  StatusCode resp = 206 /\
  RespHeader resp !! "Content-Range" = Some (Content_Range start end_ (Size node)) /\
  RespHeader resp !! "Content-Length" = Some (strconv_FormatInt (end_ - start + 1)) /\
  end_ - start + 1 <= 0 /\
  RespBody resp = [].
Proof.
  intros Hopen Hstat Hmax Hh Hp Hlt Hseek resp. subst resp.
  pose proof (Size_bounds node) as Hsz.
  destruct (parseRange_bounds h (Size node) start end_ ltac:(lia) Hp) as [Hs He].
  rewrite (serve_range g fs node Hopen Hstat h start end_ Hh Hp).
  assert (Hn : Int64.add (Int64.sub end_ start) 1 = end_ - start + 1).
  { unfold Int64.add. rewrite Int64_sub_id by (unfold Int64.min, Int64.max in *; lia).
    apply Int64_wrap_id. unfold Int64.min, Int64.max in *. lia. }
  rewrite Hn. cbn [StatusCode RespHeader RespBody].
  destruct (range_headers_lookup start end_ (Size node) (end_ - start + 1)) as (H1 & H2 & _).
  rewrite Hseek. destruct (Z.ltb_spec start 0); [lia |]. cbn [orb].
  split; [done |]. split; [done |]. split; [done |]. split; [lia |].
  replace (Z.to_nat (end_ - start + 1)) with O by lia. done.
Qed.

Lemma start_past_end_served_empty_witness :
  let resp := serve demo_globals demo_disk (Some "bytes=200-5") in
  StatusCode resp = 206 /\
  RespHeader resp !! "Content-Range" =
    Some (Content_Range 200 5 (Size (regular "0123456789abcdefghij"))) /\
  RespHeader resp !! "Content-Length" = Some (strconv_FormatInt (5 - 200 + 1)) /\
  5 - 200 + 1 <= 0 /\
  RespBody resp = [].
Proof.
  apply (start_past_end_served_empty demo_globals demo_disk
           (regular "0123456789abcdefghij") "bytes=200-5" 200 5).
  - reflexivity.
  - reflexivity.
  - vm_compute. discriminate.
  - discriminate.
  - vm_compute. reflexivity.
  - lia.
  - reflexivity.
Defined.

(** ** Address resolution *)

Lemma To4_length ip p4 : To4 ip = Some p4 -> length p4 = 4%nat.
Proof.
  unfold To4. destruct (Nat.eqb_spec (length ip) 4) as [H4|_]; [by intros [= <-] |].
  destruct (Nat.eqb_spec (length ip) 16) as [H16|_]; [|done].
  destruct (_ && _ && _); [|done]. intros [= <-].
  rewrite length_take, length_drop. lia.
Qed.

Lemma To4_fixed ip p4 : To4 ip = Some p4 -> To4 p4 = Some p4.
Proof.
  intros H. apply To4_length in H. unfold To4.
  by destruct (Nat.eqb_spec (length p4) 4).
Qed.

Lemma IP_String_To4 ipv6 ip p4 : To4 ip = Some p4 -> IP_String ipv6 ip = dotted p4.
Proof.
  intros H. unfold IP_String. rewrite H. by destruct ip.
Qed.

Lemma scanAddrs_Some addrs gwIP ip :
  scanAddrs addrs gwIP = Some ip ->
  exists ipnet,
    In (IPNetAddr ipnet) addrs /\ To4 (IPNet_IP ipnet) = Some ip /\
    IsGlobalUnicast ip = true /\ IsLoopback ip = false /\
    Contains ipnet gwIP = true.
Proof.
  induction addrs as [|[ipnet|s] rest IH]; cbn [scanAddrs]; [done | |].
  - destruct (To4 (IPNet_IP ipnet)) as [ipv4|] eqn:E4.
    + destruct (IsGlobalUnicast ipv4) eqn:EG, (IsLoopback ipv4) eqn:EL; cbn [negb orb];
        try (intros H; destruct (IH H) as (n & ? & ?); exists n; split; [by right | done]).
      destruct (Contains ipnet gwIP) eqn:EC.
      * intros [= <-]. exists ipnet. repeat split; try done. by left.
      * intros H; destruct (IH H) as (n & ? & ?); exists n; split; [by right | done].
    + intros H; destruct (IH H) as (n & ? & ?); exists n; split; [by right | done].
  - intros H; destruct (IH H) as (n & ? & ?); exists n; split; [by right | done].
Qed.

Lemma scanAddrs_None addrs gwIP :
  scanAddrs addrs gwIP = None ->
  forall ipnet ip,
    In (IPNetAddr ipnet) addrs -> To4 (IPNet_IP ipnet) = Some ip ->
    IsGlobalUnicast ip = true -> IsLoopback ip = false ->
    Contains ipnet gwIP = false.
Proof.
  induction addrs as [|[n|s] rest IH]; cbn [scanAddrs]; [by intros _ ? ? [] | |].
  - intros H ipnet ip [[= ->] | Hin] E4 EG EL.
    + rewrite E4, EG, EL in H. cbn [negb orb] in H.
      by destruct (Contains ipnet gwIP).
    + apply (IH) with (ip := ip); try done.
      destruct (To4 (IPNet_IP n)) as [v|]; [|done].
      destruct (negb (IsGlobalUnicast v) || IsLoopback v); [done |].
      by destruct (Contains n gwIP).
  - intros H ipnet ip [[=] | Hin]. by apply IH.
Qed.

Lemma scanInterfaces_Some interfaces gwIP ip :
  scanInterfaces interfaces gwIP = Some ip ->
  exists iface, In iface interfaces /\ carries iface gwIP ip.
Proof.
  induction interfaces as [|iface rest IH]; cbn [scanInterfaces]; [done |].
  destruct (Z.eqb_spec (Z.land (Flags iface) FlagUp) 0) as [|Hup].
  { intros H. destruct (IH H) as (i & ? & ?). exists i. split; [by right | done]. }
  destruct (Addrs iface) as [addrs|e] eqn:EA.
  2:{ intros H. destruct (IH H) as (i & ? & ?). exists i. split; [by right | done]. }
  destruct (scanAddrs addrs gwIP) as [v|] eqn:ES.
  - intros [= <-]. exists iface. split; [by left |].
    destruct (scanAddrs_Some _ _ _ ES) as (ipnet & ?). split; [done |].
    by exists addrs, ipnet.
  - intros H. destruct (IH H) as (i & ? & ?). exists i. split; [by right | done].
Qed.

Lemma scanInterfaces_None interfaces gwIP :
  scanInterfaces interfaces gwIP = None ->
  forall iface ip, In iface interfaces -> ~ carries iface gwIP ip.
Proof.
  induction interfaces as [|i rest IH]; cbn [scanInterfaces]; [by intros _ ? ? [] |].
  intros H iface ip [<- | Hin] (Hup & addrs & ipnet & EA & Hin' & E4 & EG & EL & EC).
  - destruct (Z.eqb_spec (Z.land (Flags i) FlagUp) 0); [done |].
    rewrite EA in H. destruct (scanAddrs addrs gwIP) eqn:ES; [done |].
    by rewrite (scanAddrs_None _ _ ES ipnet ip) in EC.
  - apply (IH) with (iface := iface) (ip := ip); [|done |].
    + destruct (Z.land (Flags i) FlagUp =? 0); [done |].
      destruct (Addrs i) as [a|]; [|done]. by destruct (scanAddrs a gwIP).
    + split; [done |]. by exists addrs, ipnet.
Qed.

(** C8. With the default gateway discovered, the resolver either returns
    the IPv4 address of an up interface, global unicast and not loopback,
    whose subnet holds the gateway, and [localIPString] is its dotted text;
    or no up interface carries such an address, the resolver fails with the
    error naming the gateway, and [main] exits with code 1 before serving. *)
Theorem gateway_resolution ipv6 h gwIP interfaces :
  gateway_DiscoverGateway h = inl gwIP ->
  net_Interfaces h = inl interfaces ->
  match getLocalIPForGateway h gwIP with
  | inl ip =>
      (exists iface, In iface interfaces /\ carries iface gwIP ip) /\
      localIPString ipv6 h = inl (dotted ip)
  | inr e =>
      e = NoLocalIPForGateway gwIP /\
      (forall iface ip, In iface interfaces -> ~ carries iface gwIP ip) /\
      localIPString ipv6 h = inr (FindLocalFailed e) /\
      forall port path rest fs,
        1 <= port <= 65535 -> is_Some (fs !! path) ->
        main ipv6 port (path :: rest) fs h = Exit 1
  end.
Proof.
  intros Hgw Hifs. unfold localIPString, main, localIPString.
  rewrite Hgw. unfold getLocalIPForGateway. rewrite Hifs.
  destruct (scanInterfaces interfaces gwIP) as [ip|] eqn:ES.
  - destruct (scanInterfaces_Some _ _ _ ES) as (iface & Hin & Hc).
    split; [by exists iface |].
    destruct Hc as (_ & addrs & ipnet & _ & _ & E4 & _).
    pose proof (To4_length _ _ E4) as Hlen.
    rewrite (IP_String_To4 ipv6 ip ip (To4_fixed _ _ E4)).
    by destruct ip.
  - split; [done |]. split; [by apply scanInterfaces_None |]. split; [done |].
    intros port path rest fs Hport [node Hnode].
    destruct (Z.ltb_spec port 1); [lia |]. destruct (Z.gtb_spec port 65535); [lia |].
    cbn [orb]. by rewrite Hnode.
Qed.

Lemma gateway_resolution_witness :
  match getLocalIPForGateway lan_host (ip4 192 168 1 1) with
  | inl ip =>
      (exists iface, In iface lan_interfaces /\ carries iface (ip4 192 168 1 1) ip) /\
      localIPString no_ipv6_text lan_host = inl (dotted ip)
  | inr e =>
      e = NoLocalIPForGateway (ip4 192 168 1 1) /\
      (forall iface ip, In iface lan_interfaces -> ~ carries iface (ip4 192 168 1 1) ip) /\
      localIPString no_ipv6_text lan_host = inr (FindLocalFailed e) /\
      forall port path rest fs,
        1 <= port <= 65535 -> is_Some (fs !! path) ->
        main no_ipv6_text port (path :: rest) fs lan_host = Exit 1
  end.
Proof.
  apply (gateway_resolution no_ipv6_text lan_host (ip4 192 168 1 1) lan_interfaces).
  - reflexivity.
  - reflexivity.
Defined.

Lemma firstLANAddr_found ipv6 pre n post p4 :
  Forall passed_over pre ->
  IsLoopback (IPNet_IP n) = false -> To4 (IPNet_IP n) = Some p4 ->
  firstLANAddr ipv6 (pre ++ IPNetAddr n :: post)%list = Some (dotted p4).
Proof.
  intros Hpre HL H4. induction Hpre as [|a pre Ha _ IH]; cbn [app firstLANAddr].
  - rewrite HL, H4. cbn [negb]. by rewrite (IP_String_To4 ipv6 _ _ H4).
  - destruct a as [m|s]; [|done]. destruct Ha as [-> | ->]; [done |].
    by destruct (negb (IsLoopback (IPNet_IP m))).
Qed.

Lemma firstLANAddr_none ipv6 addrs :
  Forall passed_over addrs -> firstLANAddr ipv6 addrs = None.
Proof.
  induction 1 as [|a addrs Ha _ IH]; cbn [firstLANAddr]; [done |].
  destruct a as [m|s]; [|done]. destruct Ha as [-> | ->]; [done |].
  by destruct (negb (IsLoopback (IPNet_IP m))).
Qed.

(** C9. [getLocalIP] returns the dotted text of the first address of the
    enumeration that is an IPv4 address and not loopback, and [localhost]
    when the enumeration has no such address. *)
Theorem fallback_resolution ipv6 h addrs expected :
  net_InterfaceAddrs h = inl addrs ->
  ((exists pre n post p4,
      addrs = (pre ++ IPNetAddr n :: post)%list /\ Forall passed_over pre /\
      IsLoopback (IPNet_IP n) = false /\ To4 (IPNet_IP n) = Some p4 /\
      expected = dotted p4) \/
   (Forall passed_over addrs /\ expected = "localhost")) ->
  getLocalIP ipv6 h = expected.
Proof.
  intros Hh H. unfold getLocalIP. rewrite Hh.
  destruct H as [(pre & n & post & p4 & -> & Hpre & HL & H4 & ->) | [Hall ->]].
  - by rewrite (firstLANAddr_found ipv6 pre n post p4).
  - by rewrite firstLANAddr_none.
Qed.

Lemma fallback_resolution_witness :
  getLocalIP no_ipv6_text loopback_host = "localhost".
Proof.
  apply (fallback_resolution no_ipv6_text loopback_host
           [eth (ip4 127 0 0 1) (ip4 255 0 0 0)] "localhost").
  - reflexivity.
  - right. split; [|reflexivity].
    constructor; [left; reflexivity | constructor].
Defined.

(** ** Worked examples *)

Example ParseInt_plain : strconv_ParseInt "1023" = (1023, None).
Proof. vm_compute. reflexivity. Qed.

Example ParseInt_plus : strconv_ParseInt "+5" = (5, None).
Proof. vm_compute. reflexivity. Qed.

Example ParseInt_letters : strconv_ParseInt "abc" = (0, Some ErrSyntax).
Proof. vm_compute. reflexivity. Qed.

Example ParseInt_comma : strconv_ParseInt "10,20" = (0, Some ErrSyntax).
Proof. vm_compute. reflexivity. Qed.

Example ParseInt_overflow :
  strconv_ParseInt "9223372036854775808" = (9223372036854775807, Some ErrRange).
Proof. vm_compute. reflexivity. Qed.

Example ParseInt_min :
  strconv_ParseInt "-9223372036854775808" = (-9223372036854775808, None).
Proof. vm_compute. reflexivity. Qed.

Example FormatInt_neg : strconv_FormatInt (-194) = "-194".
Proof. vm_compute. reflexivity. Qed.

Example Split_range : strings_Split "0-10,20-30" "-" = ["0"; "10,20"; "30"].
Proof. vm_compute. reflexivity. Qed.

Example Split_open : strings_Split "0-" "-" = ["0"; EmptyString].
Proof. vm_compute. reflexivity. Qed.

Example Split_empty : strings_Split EmptyString "-" = [EmptyString].
Proof. vm_compute. reflexivity. Qed.

Example Split_wide_sep : strings_Split "a, b, c" ", " = ["a"; "b"; "c"].
Proof. vm_compute. reflexivity. Qed.

Example parseRange_open_end : parseRange "bytes=0-" 1000 = ByteRange 0 999.
Proof. vm_compute. reflexivity. Qed.

Example parseRange_clamped : parseRange "bytes=500-2000" 1000 = ByteRange 500 999.
Proof. vm_compute. reflexivity. Qed.

Example parseRange_no_dash : parseRange "bytes=5" 1000 = ByteRange 5 999.
Proof. vm_compute. reflexivity. Qed.

Example parseRange_suffix : parseRange "bytes=-5" 1000 = InvalidRange.
Proof. vm_compute. reflexivity. Qed.

Example parseRange_other_unit : parseRange "items=0-10" 1000 = InvalidRange.
Proof. vm_compute. reflexivity. Qed.

Example serve_signed_start :
  RespBody (serve demo_globals demo_disk (Some "bytes=+5-7")) = list_byte_of_string "567".
Proof. vm_compute. reflexivity. Qed.

Example serve_missing_file :
  StatusCode (serve demo_globals ∅ None) = 500.
Proof. vm_compute. reflexivity. Qed.

Example localIPString_lan : localIPString no_ipv6_text lan_host = inl "192.168.1.5".
Proof. vm_compute. reflexivity. Qed.

Example getLocalIP_lan : getLocalIP no_ipv6_text lan_host = "192.168.1.5".
Proof. vm_compute. reflexivity. Qed.

Example main_lan :
  main no_ipv6_text 9090 ["movie.mp4"] demo_disk lan_host
  = Serving "http://192.168.1.5:9090".
Proof. vm_compute. reflexivity. Qed.

Example main_no_gateway :
  main no_ipv6_text 9090 ["movie.mp4"] demo_disk loopback_host = Exit 1.
Proof. vm_compute. reflexivity. Qed.

(** ** More on the handler *)



Lemma range_length_exact fileSize start end_ :
  0 <= fileSize <= Int64.max ->
  0 <= start <= Int64.max -> -1 <= end_ <= fileSize - 1 ->
  Int64.add (Int64.sub end_ start) 1 = end_ - start + 1.
Proof.
  intros Hsz Hs He. unfold Int64.add.
  rewrite Int64_sub_id by (unfold Int64.min, Int64.max in *; lia).
  apply Int64_wrap_id. unfold Int64.min, Int64.max in *. lia.
Qed.


Lemma parseRange_open_header start fileSize :
  0 <= start <= Int64.max -> 0 <= fileSize <= Int64.max ->
  parseRange (open_header start) fileSize = ByteRange start (fileSize - 1).
Proof.
  intros Hs Hsz. unfold open_header.
  rewrite (parseRange_fields _ _ (strconv_FormatInt start) [EmptyString]).
  2:{ apply (rangeParts_pair (strconv_FormatInt start) EmptyString); [|done].
      apply FormatInt_no_dash; lia. }
  rewrite ParseInt_FormatInt by lia. cbn [String.eqb].
  by rewrite Int64_sub_id by (unfold Int64.min, Int64.max in *; lia).
Qed.

Lemma slice_length (data : list Byte.byte) start end_ :
  0 <= start -> start <= end_ + 1 -> end_ < Z.of_nat (length data) ->
  Z.of_nat (length (slice start end_ data)) = end_ - start + 1.
Proof.
  intros Hs Hse He. unfold slice. rewrite length_take, length_drop. lia.
Qed.

Lemma serve_range_header_body g fs node start end_ :
  fs !! videoFilePath g = Some node ->
  statErr node = None ->
  Size node <= Int64.max ->
  seekFails node start = false ->
  0 <= start <= end_ -> end_ < Size node ->
  RespBody (serve g fs (Some (range_header start end_))) = slice start end_ (contents node).
Proof.
  intros Hopen Hstat Hmax Hseek Hse Hlt.
  pose proof (Size_bounds node) as Hsz.
  assert (Hne : range_header start end_ <> EmptyString) by apply bytes_header_nonempty.
  rewrite (serve_range g fs node Hopen Hstat _ start end_ Hne).
  2:{ apply parseRange_range_header; lia. }
  rewrite (range_length_exact (Size node)) by lia.
  cbn [RespBody]. rewrite Hseek. by destruct (Z.ltb_spec start 0); [lia |].
Qed.



(** X2. When the opened file cannot be stat'ed, every request is answered
    with status 500 and the text of the failure, and no byte of the file is
    sent, whatever the [Range] header. *)
Theorem stat_failure_answers_500 g fs node e range :
  fs !! videoFilePath g = Some node ->
  statErr node = Some e ->
  let resp := serve g fs range in
  StatusCode resp = 500 /\
  RespBody resp = error_body ("Failed to get file information: " +:+ e) /\
  RespHeader resp !! "Content-Length" = None /\
  RespHeader resp !! "Content-Range" = None.
Proof.
  intros Hopen Hstat resp. subst resp.
  unfold serve, videoHandler, os_Open, File_Stat. rewrite Hopen. cbn [inode].
  rewrite Hstat. rewrite Result_http_Error_first by done.
  cbn [StatusCode RespBody RespHeader]. repeat split; done.
Qed.

Lemma stat_failure_answers_500_witness :
  let resp := serve demo_globals unreadable_disk (Some "bytes=0-1") in
  StatusCode resp = 500 /\
  RespBody resp = error_body ("Failed to get file information: "
                              +:+ "stat: input/output error") /\
  RespHeader resp !! "Content-Length" = None /\
  RespHeader resp !! "Content-Range" = None.
Proof.
  apply (stat_failure_answers_500 demo_globals unreadable_disk
           (unreadable "0123456789abcdefghij") "stat: input/output error"
           (Some "bytes=0-1")).
  - reflexivity.
  - reflexivity.
Defined.

(** X3. A suffix range [bytes=-N] (the last N bytes) is never served: the
    start field of such a header is empty and the answer is 400. *)
Theorem suffix_range_rejected g fs node suffix :
  fs !! videoFilePath g = Some node ->
  statErr node = None ->
  let resp := serve g fs (Some ("bytes=-" +:+ suffix)) in
  StatusCode resp = 400 /\ RespBody resp = error_body "Invalid Range request".
Proof.
  intros Hopen Hstat resp. subst resp.
  rewrite (serve_invalid g fs node Hopen Hstat); [done | discriminate |].
  assert (E : exists tl, rangeParts ("bytes=-" +:+ suffix) = EmptyString :: tl).
  { unfold rangeParts, strings_Split.
    change ("bytes=-" +:+ suffix) with ("bytes=" +:+ String "-" suffix).
    rewrite TrimPrefix_bytes, split_dash_cons. cbn [Ascii.eqb Bool.eqb]. eauto. }
  destruct E as [tl E]. by rewrite (parseRange_fields _ _ _ _ E).
Qed.

Lemma suffix_range_rejected_witness :
  let resp := serve demo_globals demo_disk (Some ("bytes=-" +:+ "5")) in
  StatusCode resp = 400 /\ RespBody resp = error_body "Invalid Range request".
Proof.
  apply (suffix_range_rejected demo_globals demo_disk
           (regular "0123456789abcdefghij") "5").
  - reflexivity.
  - reflexivity.
Defined.

(** X4. Once the file is opened and stat'ed the status depends on the
    [Range] header alone: 200 without one, 400 when it does not parse, 206
    otherwise, also when the seek fails.  It is never 500 and never 416. *)
Theorem status_by_header g fs node range :
  fs !! videoFilePath g = Some node ->
  statErr node = None ->
  let status := StatusCode (serve g fs range) in
  status =
    match range with
    | None => 200
    | Some h =>
        if String.eqb h EmptyString then 200
        else match parseRange h (Size node) with
             | InvalidRange => 400
             | ByteRange _ _ => 206
             end
    end /\
  status <> 500 /\ status <> 416.
Proof.
  intros Hopen Hstat status. subst status.
  destruct range as [h|].
  - destruct (String.eqb_spec h EmptyString) as [->|Hh].
    + by rewrite (serve_full g fs node Hopen Hstat (Some EmptyString)) by (by right).
    + destruct (parseRange h (Size node)) as [|s e] eqn:Hp.
      * by rewrite (serve_invalid g fs node Hopen Hstat h Hh Hp).
      * by rewrite (serve_range g fs node Hopen Hstat h s e Hh Hp).
  - by rewrite (serve_full g fs node Hopen Hstat None) by (by left).
Qed.

Lemma status_by_header_witness :
  let status := StatusCode (serve demo_globals pipe_disk (Some "bytes=3-")) in
  status =
    (if String.eqb "bytes=3-" EmptyString then 200
     else match parseRange "bytes=3-" (Size (pipe "0123456789abcdefghij")) with
          | InvalidRange => 400
          | ByteRange _ _ => 206
          end) /\
  status <> 500 /\ status <> 416.
Proof.
  apply (status_by_header demo_globals pipe_disk
           (pipe "0123456789abcdefghij") (Some "bytes=3-")).
  - reflexivity.
  - reflexivity.
Defined.

(** X5. Whatever the header, the start the handler seeks to is never
    negative, the end it uses never lies beyond the last byte of the file,
    and the [int64] subtractions and additions of the handler do not wrap:
    the length it announces and copies is the integer [end-start+1]. *)
Theorem range_arithmetic_exact h fileSize start end_ :
  0 <= fileSize <= Int64.max ->
  parseRange h fileSize = ByteRange start end_ ->
  0 <= start <= Int64.max /\
  -1 <= end_ <= fileSize - 1 /\
  Int64.sub fileSize 1 = fileSize - 1 /\
  Int64.add (Int64.sub end_ start) 1 = end_ - start + 1.
Proof.
  intros Hsz Hp. destruct (parseRange_bounds h fileSize start end_ Hsz Hp) as [Hs He].
  split; [done |]. split; [done |]. split.
  - apply Int64_sub_id. unfold Int64.min, Int64.max in *. lia.
  - by apply (range_length_exact fileSize).
Qed.

Lemma range_arithmetic_exact_witness :
  0 <= 9223372036854775807 <= Int64.max /\
  -1 <= 19 <= 20 - 1 /\
  Int64.sub 20 1 = 20 - 1 /\
  Int64.add (Int64.sub 19 9223372036854775807) 1 = 19 - 9223372036854775807 + 1.
Proof.
  apply (range_arithmetic_exact "bytes=9223372036854775807-" 20
           9223372036854775807 19).
  - vm_compute. split; discriminate.
  - vm_compute. reflexivity.
Defined.

(** X6. In every 206 answer whose start is not above [end+1] and whose seek
    succeeded, the body is bytes [[start, end]] of the file and the
    [Content-Length] header, read back as a decimal number, is the number
    of bytes of the body. *)
Theorem content_length_counts_body g fs node h start end_ :
  fs !! videoFilePath g = Some node ->
  statErr node = None ->
  Size node <= Int64.max ->
  h <> EmptyString ->
  parseRange h (Size node) = ByteRange start end_ ->
  start <= end_ + 1 ->
  seekFails node start = false ->
  let resp := serve g fs (Some h) in
  RespBody resp = slice start end_ (contents node) /\
  exists v,
    RespHeader resp !! "Content-Length" = Some v /\
    strconv_ParseInt v = (Z.of_nat (length (RespBody resp)), None).
Proof.
  intros Hopen Hstat Hmax Hh Hp Hse Hseek resp. subst resp.
  pose proof (Size_bounds node) as Hsz.
  destruct (parseRange_bounds h (Size node) start end_ ltac:(lia) Hp) as [Hs He].
  rewrite (serve_range g fs node Hopen Hstat h start end_ Hh Hp).
  rewrite (range_length_exact (Size node)) by lia.
  cbn [RespHeader RespBody].
  rewrite Hseek. destruct (Z.ltb_spec start 0); [lia |]. cbn [orb].
  split; [done |]. exists (strconv_FormatInt (end_ - start + 1)).
  destruct (range_headers_lookup start end_ (Size node) (end_ - start + 1)) as (_ & H2 & _).
  split; [done |].
  fold (slice start end_ (contents node)).
  rewrite slice_length by (unfold Size in *; lia).
  apply ParseInt_FormatInt. lia.
Qed.

Lemma content_length_counts_body_witness :
  let resp := serve demo_globals demo_disk (Some "bytes=+5-400") in
  RespBody resp = slice 5 19 (contents (regular "0123456789abcdefghij")) /\
  exists v,
    RespHeader resp !! "Content-Length" = Some v /\
    strconv_ParseInt v = (Z.of_nat (length (RespBody resp)), None).
Proof.
  apply (content_length_counts_body demo_globals demo_disk
           (regular "0123456789abcdefghij") "bytes=+5-400" 5 19).
  - reflexivity.
  - reflexivity.
  - vm_compute. discriminate.
  - discriminate.
  - vm_compute. reflexivity.
  - lia.
  - reflexivity.
Defined.

(** X7. Adjacent ranges tile the file: the body answered for
    [bytes={a}-{b}] followed by the body answered for [bytes={b+1}-{c}] is
    the body answered for [bytes={a}-{c}]. *)
Theorem adjacent_ranges_concatenate g fs node a b c :
  fs !! videoFilePath g = Some node ->
  statErr node = None ->
  Size node <= Int64.max ->
  seekFails node a = false -> seekFails node (b + 1) = false ->
  0 <= a <= b -> b < c -> c < Size node ->
  (RespBody (serve g fs (Some (range_header a b)))
   ++ RespBody (serve g fs (Some (range_header (b + 1) c))))%list
  = RespBody (serve g fs (Some (range_header a c))).
Proof.
  intros Hopen Hstat Hmax Hsa Hsb Hab Hbc Hc.
  rewrite !(serve_range_header_body g fs node) by (done || lia).
  unfold slice.
  replace (Z.to_nat (b + 1)) with (Z.to_nat a + Z.to_nat (b - a + 1))%nat by lia.
  rewrite <- drop_drop, take_take_drop. f_equal. lia.
Qed.

Lemma adjacent_ranges_concatenate_witness :
  (RespBody (serve demo_globals demo_disk (Some (range_header 2 5)))
   ++ RespBody (serve demo_globals demo_disk (Some (range_header (5 + 1) 11))))%list
  = RespBody (serve demo_globals demo_disk (Some (range_header 2 11))).
Proof.
  apply (adjacent_ranges_concatenate demo_globals demo_disk
           (regular "0123456789abcdefghij") 2 5 11).
  - reflexivity.
  - reflexivity.
  - vm_compute. discriminate.
  - reflexivity.
  - reflexivity.
  - lia.
  - lia.
  - vm_compute. reflexivity.
Defined.

(** X8. An open-ended header [bytes={start}-] with [start] within the file
    is answered with status 206, the range [start] to [length-1] and, as
    body, the file from [start] to its end. *)
Theorem open_ended_range_serves_tail g fs node start :
  fs !! videoFilePath g = Some node ->
  statErr node = None ->
  Size node <= Int64.max ->
  0 <= start <= Size node ->
  seekFails node start = false ->
  let resp := serve g fs (Some (open_header start)) in
  StatusCode resp = 206 /\
  RespHeader resp !! "Content-Range"
    = Some (Content_Range start (Size node - 1) (Size node)) /\
  RespHeader resp !! "Content-Length" = Some (strconv_FormatInt (Size node - start)) /\
  RespBody resp = drop (Z.to_nat start) (contents node).
Proof.
  intros Hopen Hstat Hmax Hs Hseek resp. subst resp.
  pose proof (Size_bounds node) as Hsz.
  assert (Hne : open_header start <> EmptyString) by apply bytes_header_nonempty.
  rewrite (serve_range g fs node Hopen Hstat _ start (Size node - 1) Hne).
  2:{ apply parseRange_open_header; lia. }
  rewrite (range_length_exact (Size node)) by lia.
  replace (Size node - 1 - start + 1) with (Size node - start) by lia.
  cbn [StatusCode RespHeader RespBody].
  destruct (range_headers_lookup start (Size node - 1) (Size node) (Size node - start))
    as (H1 & H2 & _).
  rewrite Hseek. destruct (Z.ltb_spec start 0); [lia |]. cbn [orb].
  split; [done |]. split; [done |]. split; [done |].
  apply take_ge. rewrite length_drop. unfold Size in *. lia.
Qed.

Lemma open_ended_range_serves_tail_witness :
  let resp := serve demo_globals demo_disk (Some (open_header 15)) in
  StatusCode resp = 206 /\
  RespHeader resp !! "Content-Range"
    = Some (Content_Range 15 (Size (regular "0123456789abcdefghij") - 1)
                          (Size (regular "0123456789abcdefghij"))) /\
  RespHeader resp !! "Content-Length"
    = Some (strconv_FormatInt (Size (regular "0123456789abcdefghij") - 15)) /\
  RespBody resp = drop (Z.to_nat 15) (contents (regular "0123456789abcdefghij")).
Proof.
  apply (open_ended_range_serves_tail demo_globals demo_disk
           (regular "0123456789abcdefghij") 15).
  - reflexivity.
  - reflexivity.
  - vm_compute. discriminate.
  - vm_compute. split; discriminate.
  - reflexivity.
Defined.





(** ** More on address resolution *)

Lemma scanInterfaces_app l1 l2 gwIP :
  scanInterfaces (l1 ++ l2)%list gwIP =
  match scanInterfaces l1 gwIP with
  | Some ip => Some ip
  | None => scanInterfaces l2 gwIP
  end.
Proof.
  induction l1 as [|i l1 IH]; cbn [app scanInterfaces]; [done |].
  destruct (Z.land (Flags i) FlagUp =? 0); [done |].
  destruct (Addrs i) as [addrs|]; [|done].
  by destruct (scanAddrs addrs gwIP).
Qed.

Lemma scanInterfaces_unusable i l gwIP :
  unusable i -> scanInterfaces (i :: l) gwIP = scanInterfaces l gwIP.
Proof.
  intros [Hdown | [e He]]; cbn [scanInterfaces].
  - by rewrite Hdown.
  - rewrite He. by destruct (Z.land (Flags i) FlagUp =? 0).
Qed.

Lemma scanInterfaces_first interfaces gwIP ip :
  scanInterfaces interfaces gwIP = Some ip ->
  exists l1 iface l2,
    interfaces = (l1 ++ iface :: l2)%list /\ carries iface gwIP ip /\
    forall i ip', In i l1 -> ~ carries i gwIP ip'.
Proof.
  induction interfaces as [|a rest IH]; [done |].
  change (a :: rest) with ([a] ++ rest)%list. rewrite scanInterfaces_app.
  destruct (scanInterfaces [a] gwIP) as [v|] eqn:Ea.
  - intros [= <-]. exists [], a, rest. split; [done |]. split; [|by intros ? ? []].
    destruct (scanInterfaces_Some _ _ _ Ea) as (i & [<- | []] & Hc). done.
  - intros H. destruct (IH H) as (l1 & iface & l2 & -> & Hc & Hnone).
    exists (a :: l1), iface, l2. split; [done |]. split; [done |].
    intros i ip' [<- | Hin]; [|by apply Hnone].
    apply (scanInterfaces_None _ _ Ea). by left.
Qed.

Lemma firstLANAddr_Some ipv6 addrs s :
  firstLANAddr ipv6 addrs = Some s ->
  exists n p4,
    In (IPNetAddr n) addrs /\ IsLoopback (IPNet_IP n) = false /\
    To4 (IPNet_IP n) = Some p4 /\ s = dotted p4.
Proof.
  induction addrs as [|[n|o] rest IH]; cbn [firstLANAddr]; [done | |].
  - destruct (IsLoopback (IPNet_IP n)) eqn:EL; cbn [negb].
    + intros H. destruct (IH H) as (m & p4 & ? & ?). exists m, p4. split; [by right | done].
    + destruct (To4 (IPNet_IP n)) as [p4|] eqn:E4.
      * intros [= <-]. exists n, p4. split; [by left |].
        by rewrite (IP_String_To4 ipv6 _ _ E4).
      * intros H. destruct (IH H) as (m & p4 & ? & ?). exists m, p4.
        split; [by right | done].
  - intros H. destruct (IH H) as (m & p4 & ? & ?). exists m, p4. split; [by right | done].
Qed.

(** X11. An interface that is down, or whose addresses cannot be listed,
    does not change the result of the scan: the resolver answers as if the
    interface were not there. *)
Theorem unusable_interface_skipped h h' gwIP l1 bad l2 :
  net_Interfaces h = inl (l1 ++ bad :: l2)%list ->
  net_Interfaces h' = inl (l1 ++ l2)%list ->
  unusable bad ->
  getLocalIPForGateway h gwIP = getLocalIPForGateway h' gwIP.
Proof.
  intros Hh Hh' Hbad. unfold getLocalIPForGateway. rewrite Hh, Hh'.
  rewrite !scanInterfaces_app. by rewrite (scanInterfaces_unusable bad l2 gwIP Hbad).
Qed.

Lemma unusable_interface_skipped_witness :
  getLocalIPForGateway (host_with crowded_interfaces) (ip4 192 168 1 1)
  = getLocalIPForGateway (host_with (take 1 crowded_interfaces ++ drop 2 crowded_interfaces)%list)
                         (ip4 192 168 1 1).
Proof.
  apply (unusable_interface_skipped
           (host_with crowded_interfaces)
           (host_with (take 1 crowded_interfaces ++ drop 2 crowded_interfaces)%list)
           (ip4 192 168 1 1)
           (take 1 crowded_interfaces)
           {| Name := "tun0"; Flags := 19; Addrs := inr "route ip+net: no such device" |}
           (drop 2 crowded_interfaces)).
  - reflexivity.
  - reflexivity.
  - right. eexists. reflexivity.
Defined.

(** X12. The address returned belongs to the first interface of the
    enumeration that carries a matching address: no interface before it
    carries one. *)
Theorem first_carrying_interface_wins h gwIP interfaces ip :
  net_Interfaces h = inl interfaces ->
  getLocalIPForGateway h gwIP = inl ip ->
  exists l1 iface l2,
    interfaces = (l1 ++ iface :: l2)%list /\ carries iface gwIP ip /\
    forall i ip', In i l1 -> ~ carries i gwIP ip'.
Proof.
  intros Hh. unfold getLocalIPForGateway. rewrite Hh.
  destruct (scanInterfaces interfaces gwIP) as [v|] eqn:ES; [|done].
  intros [= <-]. by apply scanInterfaces_first.
Qed.

Lemma first_carrying_interface_wins_witness :
  exists l1 iface l2,
    crowded_interfaces = (l1 ++ iface :: l2)%list /\
    carries iface (ip4 192 168 1 1) (ip4 192 168 1 5) /\
    forall i ip', In i l1 -> ~ carries i (ip4 192 168 1 1) ip'.
Proof.
  apply (first_carrying_interface_wins (host_with crowded_interfaces)
           (ip4 192 168 1 1) crowded_interfaces (ip4 192 168 1 5)).
  - reflexivity.
  - vm_compute. reflexivity.
Defined.

(** X13. An address returned by the resolver always has four bytes, is
    global unicast and does not start with 127; [localIPString] therefore
    never reports a nil address, and the text it returns is always the
    dotted form of four bytes. *)
Theorem resolved_address_is_ipv4 ipv6 h :
  (forall gwIP ip,
     getLocalIPForGateway h gwIP = inl ip ->
     length ip = 4%nat /\ IsGlobalUnicast ip = true /\ ipbyte ip 0 <> 127) /\
  localIPString ipv6 h <> inr NilLocalIP /\
  (forall s, localIPString ipv6 h = inl s ->
             exists ip, length ip = 4%nat /\ s = dotted ip).
Proof.
  assert (Hshape : forall gwIP ip,
     getLocalIPForGateway h gwIP = inl ip ->
     length ip = 4%nat /\ IsGlobalUnicast ip = true /\ ipbyte ip 0 <> 127).
  { intros gwIP ip. unfold getLocalIPForGateway.
    destruct (net_Interfaces h) as [ifs|]; [|done].
    destruct (scanInterfaces ifs gwIP) as [v|] eqn:ES; [|done]. intros [= <-].
    destruct (scanInterfaces_Some _ _ _ ES)
      as (iface & _ & _ & addrs & ipnet & _ & _ & E4 & EG & EL & _).
    split; [by apply To4_length in E4 |]. split; [done |].
    unfold IsLoopback in EL. rewrite (To4_fixed _ _ E4) in EL.
    by apply Z.eqb_neq in EL. }
  split; [done |]. unfold localIPString.
  destruct (gateway_DiscoverGateway h) as [gwIP|]; [|by split].
  destruct (getLocalIPForGateway h gwIP) as [ip|] eqn:EG; [|by split].
  destruct (Hshape gwIP ip EG) as (Hlen & _ & _).
  destruct ip as [|b ip]; [done |]. split; [done |].
  intros s [= <-]. exists (b :: ip). split; [done |].
  unfold To4. by rewrite Hlen.
Qed.

(** X14. When the gateway cannot be discovered, or the interfaces cannot
    be enumerated, [localIPString] fails and [main] exits with code 1, even
    on a host whose interfaces have usable addresses. *)
Theorem network_failure_is_fatal ipv6 h port path rest fs :
  (exists e, gateway_DiscoverGateway h = inr e) \/ (exists e, net_Interfaces h = inr e) ->
  1 <= port <= 65535 ->
  is_Some (fs !! path) ->
  (exists err, localIPString ipv6 h = inr err) /\
  main ipv6 port (path :: rest) fs h = Exit 1.
Proof.
  intros Hfail Hport [node Hnode].
  assert (Herr : exists err, localIPString ipv6 h = inr err).
  { unfold localIPString, getLocalIPForGateway.
    destruct Hfail as [[e ->] | [e He]]; [by eauto |].
    destruct (gateway_DiscoverGateway h); [|by eauto]. rewrite He. by eauto. }
  split; [done |]. destruct Herr as [err Herr]. unfold main.
  destruct (Z.ltb_spec port 1); [lia |]. destruct (Z.gtb_spec port 65535); [lia |].
  cbn [orb]. by rewrite Hnode, Herr.
Qed.

Lemma network_failure_is_fatal_witness :
  (exists err, localIPString no_ipv6_text loopback_host = inr err) /\
  main no_ipv6_text 9090 ("movie.mp4" :: []) demo_disk loopback_host = Exit 1.
Proof.
  apply (network_failure_is_fatal no_ipv6_text loopback_host 9090 "movie.mp4" [] demo_disk).
  - left. eexists. reflexivity.
  - lia.
  - eexists. reflexivity.
Defined.


(** X16. [getLocalIP] returns [localhost] or the dotted text of an
    enumerated address that is IPv4 and not loopback, never anything else;
    when the enumeration itself fails it returns [localhost]. *)
Theorem fallback_address_sound ipv6 h :
  (getLocalIP ipv6 h = "localhost" \/
   exists addrs n p4,
     net_InterfaceAddrs h = inl addrs /\ In (IPNetAddr n) addrs /\
     IsLoopback (IPNet_IP n) = false /\ To4 (IPNet_IP n) = Some p4 /\
     getLocalIP ipv6 h = dotted p4) /\
  (forall e, net_InterfaceAddrs h = inr e -> getLocalIP ipv6 h = "localhost").
Proof.
  unfold getLocalIP. split.
  - destruct (net_InterfaceAddrs h) as [addrs|]; [|by left].
    destruct (firstLANAddr ipv6 addrs) as [s|] eqn:E; [|by left].
    right. destruct (firstLANAddr_Some _ _ _ E) as (n & p4 & ? & ? & ? & ->).
    by exists addrs, n, p4.
  - by intros e ->.
Qed.



(** ** The player page *)

Lemma chars_app a b :
  list_ascii_of_string (a +:+ b) = (list_ascii_of_string a ++ list_ascii_of_string b)%list.
Proof.
  induction a as [|c a IH]; [done |].
  change (String c a +:+ b) with (String c (a +:+ b)).
  cbn [list_ascii_of_string app]. by rewrite IH.
Qed.

Lemma append_cons_nonempty a c b : a +:+ String c b <> EmptyString.
Proof. by destruct a. Qed.

Lemma no_separator_Forall s :
  no_separator s = true ->
  Forall (fun c => Ascii.eqb c "/" = false) (list_ascii_of_string s).
Proof.
  induction s as [|c s IH]; cbn [no_separator list_ascii_of_string]; [by constructor |].
  intros H. apply andb_prop in H as [Hc Hs]. apply negb_true_iff in Hc.
  constructor; [done | by apply IH].
Qed.

Lemma Forall_no_separator l :
  Forall (fun c => Ascii.eqb c "/" = false) l ->
  no_separator (string_of_list_ascii l) = true.
Proof.
  induction 1 as [|c l Hc _ IH]; cbn [string_of_list_ascii no_separator]; [done |].
  by rewrite Hc, IH.
Qed.

Lemma all_separators_Forall s :
  all_separators s = true ->
  Forall (fun c => Ascii.eqb c "/" = true) (list_ascii_of_string s).
Proof.
  induction s as [|c s IH]; cbn [all_separators list_ascii_of_string]; [by constructor |].
  intros H. apply andb_prop in H as [Hc Hs]. constructor; [done | by apply IH].
Qed.

Lemma strip_separators_app_sep l r :
  Forall (fun c => Ascii.eqb c "/" = true) l ->
  strip_separators (l ++ r)%list = strip_separators r.
Proof.
  induction 1 as [|c l Hc _ IH]; cbn [app strip_separators]; [done |]. by rewrite Hc.
Qed.

Lemma strip_separators_name l r :
  Forall (fun c => Ascii.eqb c "/" = false) l -> l <> [] ->
  strip_separators (l ++ r)%list = (l ++ r)%list.
Proof.
  intros Hl Hne. destruct Hl as [|c l Hc _]; [done |].
  cbn [app strip_separators]. by rewrite Hc.
Qed.

Lemma last_element_app l r :
  Forall (fun c => Ascii.eqb c "/" = false) l ->
  last_element (l ++ "/"%char :: r)%list = l.
Proof.
  induction 1 as [|c l Hc _ IH]; cbn [app last_element]; [done |].
  by rewrite Hc, IH.
Qed.

Lemma last_element_name l :
  Forall (fun c => Ascii.eqb c "/" = false) l -> last_element l = l.
Proof.
  induction 1 as [|c l Hc _ IH]; cbn [last_element]; [done |]. by rewrite Hc, IH.
Qed.

Lemma last_element_Forall r :
  Forall (fun c => Ascii.eqb c "/" = false) (last_element r).
Proof.
  induction r as [|c r IH]; cbn [last_element]; [by constructor |].
  destruct (Ascii.eqb c "/") eqn:Hc; by constructor.
Qed.

Lemma chars_nonempty s : s <> EmptyString -> rev (list_ascii_of_string s) <> [].
Proof.
  destruct s as [|c s]; [done |]. intros _ H.
  apply (f_equal (@length ascii)) in H. cbn [list_ascii_of_string rev] in H.
  rewrite length_app in H. cbn in H. lia.
Qed.

Lemma Base_plain name slashes :
  no_separator name = true -> name <> EmptyString ->
  all_separators slashes = true ->
  filepath_Base (name +:+ slashes) = name.
Proof.
  intros Hn Hne Hs. unfold filepath_Base.
  assert (Hpath : name +:+ slashes <> EmptyString) by (by destruct name).
  apply String.eqb_neq in Hpath. rewrite Hpath.
  rewrite chars_app, rev_app_distr.
  rewrite strip_separators_app_sep by (apply Forall_rev; by apply all_separators_Forall).
  pose proof (Forall_rev (no_separator_Forall name Hn)) as HP.
  rewrite <- (app_nil_r (rev (list_ascii_of_string name))).
  rewrite strip_separators_name by (done || by apply chars_nonempty).
  rewrite app_nil_r, last_element_name by done.
  rewrite rev_involutive, string_of_list_ascii_of_string.
  apply String.eqb_neq in Hne. by rewrite Hne.
Qed.

Lemma Base_dir dir name slashes :
  no_separator name = true -> name <> EmptyString ->
  all_separators slashes = true ->
  filepath_Base (dir +:+ "/" +:+ name +:+ slashes) = name.
Proof.
  intros Hn Hne Hs. unfold filepath_Base.
  change ("/" +:+ name +:+ slashes) with (String "/" (name +:+ slashes)).
  pose proof (append_cons_nonempty dir "/" (name +:+ slashes)) as Hpath.
  apply String.eqb_neq in Hpath. rewrite Hpath.
  rewrite chars_app. cbn [list_ascii_of_string]. rewrite chars_app.
  rewrite rev_app_distr. cbn [rev]. rewrite rev_app_distr.
  rewrite <- !app_assoc.
  rewrite strip_separators_app_sep by (apply Forall_rev; by apply all_separators_Forall).
  pose proof (Forall_rev (no_separator_Forall name Hn)) as HP.
  rewrite strip_separators_name by (done || by apply chars_nonempty).
  cbn [app]. rewrite last_element_app by done.
  rewrite rev_involutive, string_of_list_ascii_of_string.
  apply String.eqb_neq in Hne. by rewrite Hne.
Qed.

(** X18. The player page shows the last element of the media path only:
    the directory in front of it and separators behind it change nothing
    in the answer. *)
Theorem page_ignores_directory dir name slashes port port' :
  no_separator name = true ->
  name <> EmptyString ->
  all_separators slashes = true ->
  serve_page {| videoFilePath := dir +:+ "/" +:+ name +:+ slashes; serverPort := port |}
  = serve_page {| videoFilePath := name; serverPort := port' |}.
Proof.
  intros Hn Hne Hs. unfold serve_page, playerHandler. cbn [videoFilePath].
  rewrite (Base_dir dir name slashes Hn Hne Hs).
  pose proof (Base_plain name EmptyString Hn Hne eq_refl) as Hp.
  rewrite append_nil_r in Hp. by rewrite Hp.
Qed.

Lemma page_ignores_directory_witness :
  serve_page {| videoFilePath := "/home/me/videos" +:+ "/" +:+ "movie.mp4" +:+ "//";
                serverPort := 9090 |}
  = serve_page {| videoFilePath := "movie.mp4"; serverPort := 8888 |}.
Proof.
  apply (page_ignores_directory "/home/me/videos" "movie.mp4" "//" 9090 8888).
  - reflexivity.
  - discriminate.
  - reflexivity.
Defined.

(** X19. The name shown by the page is never empty and holds no path
    separator, unless it is the separator alone (a path made of
    separators); the empty path is shown as a dot. *)
Theorem page_name_shape path :
  filepath_Base path <> EmptyString /\
  (filepath_Base path = "/" \/ no_separator (filepath_Base path) = true) /\
  (path = EmptyString -> filepath_Base path = ".") /\
  (path <> EmptyString -> all_separators path = true -> filepath_Base path = "/").
Proof.
  unfold filepath_Base. split; [|split; [|split]].
  - destruct (String.eqb path EmptyString); [done |].
    by destruct (String.eqb_spec (string_of_list_ascii (rev (last_element
         (strip_separators (rev (list_ascii_of_string path)))))) EmptyString).
  - destruct (String.eqb path EmptyString); [by right |].
    destruct (String.eqb _ EmptyString); [by left |]. right.
    apply Forall_no_separator, Forall_rev, last_element_Forall.
  - by intros ->.
  - intros Hne Hs. apply String.eqb_neq in Hne. rewrite Hne.
    rewrite <- (app_nil_r (rev (list_ascii_of_string path))).
    rewrite strip_separators_app_sep by (apply Forall_rev; by apply all_separators_Forall).
    done.
Qed.

(** X20. The player page is answered with status 200 and
    [Content-Type: text/html; charset=utf-8]; its body is a fixed text
    into which the base name of the media path is inserted twice, byte for
    byte and without any escaping: right after [<title>] and between
    [<h1>] and [</h1>]. *)
Theorem page_embeds_base_name :
  exists head mid tail,
    (forall g,
       let resp := serve_page g in
       StatusCode resp = 200 /\
       RespHeader resp !! "Content-Type" = Some "text/html; charset=utf-8" /\
       RespBody resp =
         list_byte_of_string (head +:+ filepath_Base (videoFilePath g) +:+ mid
                              +:+ filepath_Base (videoFilePath g) +:+ tail)) /\
    (exists pre, head = pre +:+ "<title>") /\
    String.prefix " - Video Player</title>" mid = true /\
    (exists pre, mid = pre +:+ "<h1>") /\
    String.prefix "</h1>" tail = true.
Proof.
  pose (page := fmt_Sprintf page_format [EmptyString; EmptyString]).
  exists (substring 0 79 page), (substring 79 597 page), (substring 676 220 page).
  split; [|split; [|split; [|split]]].
  - intros g resp. subst resp. unfold serve_page, playerHandler.
    generalize (filepath_Base (videoFilePath g)). intros f.
    split; [reflexivity |]. split; [vm_compute; reflexivity |].
    vm_compute. reflexivity.
  - exists (substring 0 72 page). vm_compute. reflexivity.
  - vm_compute. reflexivity.
  - exists (substring 79 593 page). vm_compute. reflexivity.
  - vm_compute. reflexivity.
Qed.
